(** * The channel-upload rate limiter of go-random-chat's uploader service

    The development follows [pkg/uploader/http.go]: the construction of the
    limiter ([NewChannelUploadRateLimiter]), the gin middleware that gates
    uploads ([ChannelUploadRateLimit]) and the route table built by
    [RegisterRoutes].  The token bucket itself lives in package [common],
    outside the two files at hand, and is modelled from the specification.

    Numbers: Go's [int64], [uint64] and [time.Duration] are integers of [Z]
    with their wrap-around written out; the bucket's credit count and the
    refill rate, [float64] in Go, are exact rationals of [Q]. *)

From Stdlib Require Import ZArith QArith Qminmax Lia Lqa List Ascii String.
From stdpp Require Import base option strings list gmap.

Local Open Scope Z_scope.

(** ** Go's fixed-width integers and durations *)

Module Go.

(** A value of type [int64] after an arithmetic operation: two's
    complement wrap-around. *)
Definition wrap64 (z : Z) : Z := (z + 2 ^ 63) mod 2 ^ 64 - 2 ^ 63.

Definition in_int64 (z : Z) : Prop := - 2 ^ 63 <= z < 2 ^ 63.
Definition in_uint64 (z : Z) : Prop := 0 <= z < 2 ^ 64.

(** [error]: [None] is Go's [nil], [Some msg] an error with [Error() = msg]. *)
Definition error : Type := option string.

(** The outcome of a Go call that may panic instead of returning. *)
Inductive outcome (A : Type) : Type :=
| Returned (a : A)
| Panicked (msg : string).
Arguments Returned {A} a.
Arguments Panicked {A} msg.

Definition bind {A B : Type} (m : outcome A) (f : A -> outcome B) : outcome B :=
  match m with
  | Returned a => f a
  | Panicked msg => Panicked msg
  end.

(** Interface values [any]: the dynamic type together with the value.
    [c.Request.Context().Value(k)] yields [AnyNil] when [k] is unset. *)
Inductive any : Type :=
| AnyNil
| AnyUint64 (n : Z)
| AnyInt64 (n : Z)
| AnyInt (n : Z)
| AnyString (s : string)
| AnyBool (b : bool).

(** The type assertion [v.(uint64)] in its two-result form. *)
Definition assert_uint64 (v : any) : Z * bool :=
  match v with
  | AnyUint64 n => (n, true)
  | _ => (0, false)
  end.

End Go.

(** ** Package [time] *)

Module time.

(** [time.Duration] is an [int64] count of nanoseconds. *)
Definition Duration : Type := Z.

Definition Nanosecond : Duration := 1.
Definition Microsecond : Duration := 1000 * Nanosecond.
Definition Millisecond : Duration := 1000 * Microsecond.
Definition Second : Duration := 1000 * Millisecond.
Definition Minute : Duration := 60 * Second.
Definition Hour : Duration := 60 * Minute.

(** The conversion [time.Duration(n)] of an [int64]. *)
Definition of_int64 (n : Z) : Duration := n.

(** [d * e] on durations: [int64] multiplication. *)
Definition mul (d e : Duration) : Duration := Go.wrap64 (d * e).

(** The length of a duration in seconds, as a rational. *)
Definition Seconds (d : Duration) : Q := Qmake d 1000000000.

End time.

(** ** Package [strconv] *)

Module strconv.

Definition digit (d : Z) : Ascii.ascii :=
  Ascii.ascii_of_nat (48 + Z.to_nat d).

(** The digit loop of [formatBits] in base 10: the least significant
    digit is produced first and written in front of what is already
    there.  [fuel] bounds the number of digits. *)
Fixpoint formatBits (fuel : nat) (u : Z) (acc : string) : string :=
  match fuel with
  | O => acc
  | S fuel' =>
      if u <? 10 then String (digit u) acc
      else formatBits fuel' (u / 10) (String (digit (u mod 10)) acc)
  end.

(** [strconv.FormatUint(i, 10)]: a [uint64] has at most 20 digits. *)
Definition FormatUint (i : Z) : string := formatBits 20 i EmptyString.

Definition digit_value (c : Ascii.ascii) : Z := Z.of_nat (Ascii.nat_of_ascii c) - 48.

(** Reading a string of decimal digits back, most significant first. *)
Fixpoint parse_digits (acc : Z) (s : string) : Z :=
  match s with
  | EmptyString => acc
  | String c rest => parse_digits (10 * acc + digit_value c) rest
  end.

Definition is_digit (c : Ascii.ascii) : bool :=
  let n := Z.of_nat (Ascii.nat_of_ascii c) in (48 <=? n) && (n <=? 57).

Fixpoint all_digits (s : string) : bool :=
  match s with
  | EmptyString => true
  | String c rest => is_digit c && all_digits rest
  end.

End strconv.

(** ** Package [config] *)

Module config.

(** Only the fields read by [NewChannelUploadRateLimiter] and
    [NewHttpServer] are kept.  The struct is declared outside the files
    at hand: [Rps] is a [float64], [Burst] an [int], [ExpirationHour] an
    [int64]. *)
Record ChannelUploadConfig : Type := {
  Rps : Q;
  Burst : Z
}.

Record RedisConfig : Type := {
  ExpirationHour : Z
}.

Record Config : Type := {
  Uploader_RateLimit_ChannelUpload : ChannelUploadConfig;
  Redis : RedisConfig;
  Uploader_Http_Server_Swag : bool
}.

End config.

(** ** Package [common]: the rate limiter *)

Module common.

(** The handle to the shared store, [redis.UniversalClient]. *)
Inductive UniversalClient : Type := Client (endpoint : string).

(** Modelled from the spec: the bucket state, one per key, as the store
    keeps it; the script that reads and writes it is outside the files
    at hand. *)
Record BucketState : Type := {
  tokens : Q;
  last_refill : Q   (* seconds *)
}.

Abbreviation Store := (gmap string BucketState).

(** Modelled from the spec: the struct [common.RateLimiter], which is
    declared outside the files at hand.  It holds the configuration
    triple [{rps, burst, ttl}] and the handle to the shared store. *)
Record RateLimiter : Type := {
  rc : UniversalClient;
  rps : Q;
  burst : Z;
  ttl : time.Duration
}.

(** Modelled from the spec: the constructor [common.NewRateLimiter],
    which is outside the files at hand.  "Construction takes
    configuration {rps: float, burst: int, ttl: duration} and a handle to
    the shared store"; a negative [rps] or [burst] is malformed and
    "rejected at construction time", zero is a valid configuration.  The
    call in [http.go] takes the result as one value, so the rejection is
    no error result: it is a panic. *)
Definition NewRateLimiter (rc : UniversalClient) (rps : Q) (burst : Z)
    (ttl : time.Duration) : Go.outcome RateLimiter :=
  if Qle_bool 0 rps && (0 <=? burst)
  then Go.Returned {| rc := rc; rps := rps; burst := burst; ttl := ttl |}
  else Go.Panicked "rate limiter: negative rps or burst".

(** Modelled from the spec: the clamp of the elapsed time inside
    [evaluate], which is outside the files at hand; a negative value
    counts as no time. *)
Definition clamp_elapsed (d : Q) : Q := if Qle_bool 0 d then d else 0%Q.

(** Modelled from the spec: the [min] of the refill step of [evaluate]. *)
Definition min_tokens (a b : Q) : Q := if Qle_bool a b then a else b.

(** Modelled from the spec: the token bucket algorithm [evaluate], which
    runs inside the store and is outside the files at hand.
    - no prior state: [tokens = burst], [last_refill = now];
    - [tokens = min(burst, tokens + elapsed * rps)], [elapsed] clamped
      to zero when negative;
    - [tokens >= 1]: one credit is taken and the call is allowed,
      otherwise it is denied and the credits stay;
    - [last_refill = now] in both cases. *)
Definition evaluate (state_or_absent : option BucketState) (now rps : Q)
    (burst : Z) : bool * BucketState :=
  let st :=
    match state_or_absent with
    | Some st => st
    | None => {| tokens := inject_Z burst; last_refill := now |}
    end in
  let elapsed := clamp_elapsed (now - last_refill st)%Q in
  let refilled := min_tokens (inject_Z burst) (tokens st + elapsed * rps)%Q in
  if Qle_bool 1 refilled
  then (true, {| tokens := (refilled - 1)%Q; last_refill := now |})
  else (false, {| tokens := refilled; last_refill := now |}).

(** What one call meets outside the process: the clock reading and
    whether the round trip to the store fails (unreachable, timed out,
    cancelled, malformed reply). *)
Record CallEnv : Type := {
  now : Q;
  outage : Go.error
}.

Definition reachable (t : Q) : CallEnv := {| now := t; outage := None |}.

(** Modelled from the spec: the method [Allow] of [RateLimiter], which is
    outside the files at hand.  The read of the prior state, [evaluate]
    and the write of the new state are one store operation; a failed
    round trip returns the error, denies, and leaves the store as it
    was. *)
Definition Allow (rl : RateLimiter) (env : CallEnv) (key : string)
    (s : Store) : (bool * Go.error) * Store :=
  match outage env with
  | Some e => ((false, Some e), s)
  | None =>
      let '(allow, st) := evaluate (s !! key) (now env) (rps rl) (burst rl) in
      ((allow, None), <[key := st]> s)
  end.

(** Modelled from the spec: [Allow] as a method, which is outside the
    files at hand.  The receiver is a pointer: the limiter object after
    the call stands next to the result.  The limiter "holds only immutable
    configuration and a handle to the store client". *)
Definition Allow_method (rl : RateLimiter) (env : CallEnv) (key : string)
    (s : Store) : (bool * Go.error) * RateLimiter * Store :=
  let '(r, s') := Allow rl env key s in (r, rl, s').

(** Modelled from the spec: the expiry of entries, done by the store, which
    is outside the files at hand.  An entry that stayed untouched for
    longer than [ttl] is removed; every update sets [last_refill], so the idle time is
    counted from there. *)
Definition idle_longer_than_ttl (rl : RateLimiter) (t : Q) (st : BucketState) : bool :=
  negb (Qle_bool (t - last_refill st)%Q (time.Seconds (ttl rl))).

Definition expire (rl : RateLimiter) (t : Q) (key : string) (s : Store) : Store :=
  match s !! key with
  | Some st => if idle_longer_than_ttl rl t st then delete key s else s
  | None => s
  end.

(** What happens to the store over time: calls of [Allow], by any
    replica, and expirations. *)
Inductive StoreOp : Type :=
| OpAllow (env : CallEnv) (key : string)
| OpExpire (t : Q) (key : string).

Definition apply_op (rl : RateLimiter) (s : Store) (op : StoreOp) : Store :=
  match op with
  | OpAllow env key => snd (Allow rl env key s)
  | OpExpire t key => expire rl t key s
  end.

Definition run_ops (rl : RateLimiter) (ops : list StoreOp) (s : Store) : Store :=
  fold_left (apply_op rl) ops s.

(** [n] calls of [Allow] for one key, one after the other, with the
    decisions in call order. *)
Fixpoint calls (rl : RateLimiter) (envs : list CallEnv) (key : string)
    (s : Store) : list (bool * Go.error) * Store :=
  match envs with
  | [] => ([], s)
  | env :: envs' =>
      let '(r, s1) := Allow rl env key s in
      let '(rs, s2) := calls rl envs' key s1 in
      (r :: rs, s2)
  end.

(** The limiter object after a sequence of calls. *)
Fixpoint limiter_after (rl : RateLimiter) (cs : list (CallEnv * string))
    (s : Store) : RateLimiter * Store :=
  match cs with
  | [] => (rl, s)
  | (env, key) :: cs' =>
      let '(_, rl', s') := Allow_method rl env key s in
      limiter_after rl' cs' s'
  end.

End common.

Notation "'let!' x ':=' m 'in' k" := (Go.bind m (fun x => k))
  (at level 10, x name, m at level 100, k at level 200, only parsing).

(** ** Package [net/http]: the status codes in use *)

Module http.
Definition StatusOK : Z := 200.
Definition StatusUnauthorized : Z := 401.
Definition StatusTooManyRequests : Z := 429.
Definition StatusInternalServerError : Z := 500.
End http.

(** ** The gin framework, as far as the uploader relies on it *)

Module gin.

(** [abortIndex = math.MaxInt8 >> 1]. *)
Definition abortIndex : Z := 63.

(** [c.index] is an [int8]. *)
Definition wrap8 (z : Z) : Z := (z + 128) mod 256 - 128.

(** The body of a handler: what it does with its [*gin.Context] and with
    the collaborators of the server, one node per call, the rest of the
    body below it.  A Go [return] is [Return]. *)
Inductive Prog : Type :=
| Return
| RequestValue (k : Go.any -> Prog)
    (* c.Request.Context().Value(common.ChannelKey) *)
| SetRequestValue (v : Go.any) (k : Prog)
    (* c.Request = c.Request.WithContext(context.WithValue(.., common.ChannelKey, v)) *)
| LimiterAllow (key : string) (k : bool -> Go.error -> Prog)
    (* r.channelUploadRateLimiter.Allow(c.Request.Context(), key) *)
| LoggerError (msg : string) (k : Prog)
    (* r.logger.Error(msg) *)
| AbortWithStatus (code : Z) (k : Prog)
| Respond (code : Z) (k : Prog)
    (* c.JSON(code, ..) *)
| Next (k : Prog).

(** What a request leaves behind, in order. *)
Inductive Event : Type :=
| EvHandler (i : Z)                                   (* handlers[i](c) is entered *)
| EvAllow (key : string) (allow : bool) (err : Go.error)
| EvLog (msg : string)
| EvAbort (code : Z)
| EvRespond (code : Z)
| EvNext.

(** Of the response writer the context keeps the status and whether the
    header has gone out ([Written()]); once it has, the status stays. *)
Record Context : Type := {
  value : Go.any;
  index : Z;
  status : Z;
  written : bool
}.

Section Serving.

(** The state behind the limiter and the call of [Allow] on it. *)
Variable W : Type.
Variable allow_impl : string -> W -> (bool * Go.error) * W.

Record World : Type := {
  ctx : Context;
  limiter : W;
  events : list Event
}.

Definition log (e : Event) (w : World) : World :=
  {| ctx := ctx w; limiter := limiter w; events := events w ++ [e] |}.

Definition set_limiter (l : W) (w : World) : World :=
  {| ctx := ctx w; limiter := l; events := events w |}.

Definition set_value (v : Go.any) (w : World) : World :=
  {| ctx := {| value := v; index := index (ctx w); status := status (ctx w);
               written := written (ctx w) |};
     limiter := limiter w; events := events w |}.

Definition set_status (code : Z) (w : World) : World :=
  {| ctx := {| value := value (ctx w); index := index (ctx w); status := code;
               written := written (ctx w) |};
     limiter := limiter w; events := events w |}.

Definition set_index (i : Z) (w : World) : World :=
  {| ctx := {| value := value (ctx w); index := i; status := status (ctx w);
               written := written (ctx w) |};
     limiter := limiter w; events := events w |}.

Definition set_written (b : bool) (w : World) : World :=
  {| ctx := {| value := value (ctx w); index := index (ctx w); status := status (ctx w);
               written := b |};
     limiter := limiter w; events := events w |}.

(** [c.Writer.WriteHeader(code)]:
    [if code > 0 && w.status != code { if w.Written() { return }; w.status = code }]. *)
Definition WriteHeader (code : Z) (w : World) : World :=
  if (0 <? code) && negb (status (ctx w) =? code) then
    if written (ctx w) then w else set_status code w
  else w.

(** [c.Writer.WriteHeaderNow()]: the header goes out unless it already has. *)
Definition WriteHeaderNow (w : World) : World :=
  if written (ctx w) then w else set_written true w.

(** [c.index++] *)
Definition bump (w : World) : World := set_index (wrap8 (index (ctx w) + 1)) w.

(** [c.AbortWithStatus(code)]:
    [c.Status(code); c.Writer.WriteHeaderNow(); c.Abort()], where
    [c.Status] is [c.Writer.WriteHeader] and [c.Abort()] moves the index to
    [abortIndex]. *)
Definition abort_with_status (code : Z) (w : World) : World :=
  log (EvAbort code) (set_index abortIndex (WriteHeaderNow (WriteHeader code w))).

(** [c.JSON(code, obj)]: [c.Status(code)], then the body goes out and the
    header with it. *)
Definition respond (code : Z) (w : World) : World :=
  log (EvRespond code) (WriteHeaderNow (WriteHeader code w)).

(** One handler body, [next] standing for [c.Next]. *)
Fixpoint exec (next : World -> World) (p : Prog) (w : World) : World :=
  match p with
  | Return => w
  | RequestValue k => exec next (k (value (ctx w))) w
  | SetRequestValue v k => exec next k (set_value v w)
  | LimiterAllow key k =>
      let '((allow, err), l) := allow_impl key (limiter w) in
      exec next (k allow err) (log (EvAllow key allow err) (set_limiter l w))
  | LoggerError msg k => exec next k (log (EvLog msg) w)
  | AbortWithStatus code k => exec next k (abort_with_status code w)
  | Respond code k => exec next k (respond code w)
  | Next k => exec next k (next (log EvNext w))
  end.

(** The loop of [(c *Context).Next]:
    [for c.index < int8(len(c.handlers)) { c.handlers[c.index](c); c.index++ }].
    A handler that calls [c.Next] runs the same loop one level down;
    [fuel] bounds the depth and the length of the loop.  An index
    below zero (only an [int8] that wrapped gets there) has no
    handler, Go stops with a panic there. *)
Fixpoint run_handlers (fuel : nat) (handlers : list Prog) (w : World) : World :=
  match fuel with
  | O => w
  | S fuel' =>
      if (0 <=? index (ctx w)) && (index (ctx w) <? Z.of_nat (length handlers)) then
        match handlers !! Z.to_nat (index (ctx w)) with
        | Some h =>
            run_handlers fuel' handlers
              (bump (exec (fun w' => run_handlers fuel' handlers (bump w')) h
                       (log (EvHandler (index (ctx w))) w)))
        | None => w
        end
      else w
  end.

(** [c.Next()] *)
Definition ContextNext (fuel : nat) (handlers : list Prog) (w : World) : World :=
  run_handlers fuel handlers (bump w).

(** [c.reset()]: a fresh context for a request. *)
Definition reset (v : Go.any) (l : W) : World :=
  {| ctx := {| value := v; index := -1; status := http.StatusOK; written := false |};
     limiter := l; events := [] |}.

(** [engine.handleHTTPRequest] once the route is found. *)
Definition serve (handlers : list Prog) (v : Go.any) (l : W) : World :=
  ContextNext (S (length handlers)) handlers (reset v l).

End Serving.

Arguments ctx {W} w.
Arguments limiter {W} w.
Arguments events {W} w.
Arguments log {W} e w.
Arguments set_limiter {W} l w.
Arguments set_value {W} v w.
Arguments set_status {W} code w.
Arguments set_index {W} i w.
Arguments set_written {W} b w.
Arguments WriteHeader {W} code w.
Arguments WriteHeaderNow {W} w.
Arguments respond {W} code w.
Arguments bump {W} w.
Arguments abort_with_status {W} code w.
Arguments exec {W} allow_impl next p w.
Arguments run_handlers {W} allow_impl fuel handlers w.
Arguments ContextNext {W} allow_impl fuel handlers w.
Arguments reset {W} v l.
Arguments serve {W} allow_impl handlers v l.

(** *** Router groups and the route table *)

Fixpoint collapse_slashes (after_slash : bool) (s : string) : string :=
  match s with
  | EmptyString => EmptyString
  | String c rest =>
      if Ascii.eqb c "/"%char
      then if after_slash then collapse_slashes true rest
           else String c (collapse_slashes true rest)
      else String c (collapse_slashes false rest)
  end.

Fixpoint lastChar (s : string) : option Ascii.ascii :=
  match s with
  | EmptyString => None
  | String c EmptyString => Some c
  | String _ rest => lastChar rest
  end.

Fixpoint drop_last (s : string) : string :=
  match s with
  | EmptyString => EmptyString
  | String _ EmptyString => EmptyString
  | String c rest => String c (drop_last rest)
  end.

Definition ends_with_slash (s : string) : bool :=
  match lastChar s with
  | Some c => Ascii.eqb c "/"%char
  | None => false
  end.

(** [path.Join] on paths without [.] and [..] elements: the elements are
    joined by a slash, repeated slashes collapse and a trailing slash
    goes, except for the root. *)
Definition path_Join (a b : string) : string :=
  let p := collapse_slashes false (a ++ "/" ++ b)%string in
  if ends_with_slash p && negb (String.eqb p "/") then drop_last p else p.

Definition joinPaths (absolutePath relativePath : string) : string :=
  if String.eqb relativePath "" then absolutePath
  else
    let finalPath := path_Join absolutePath relativePath in
    if ends_with_slash relativePath && negb (ends_with_slash finalPath)
    then (finalPath ++ "/")%string
    else finalPath.

(** *** What [addRoute] refuses *)

Definition is_wildcard (c : Ascii.ascii) : bool :=
  Ascii.eqb c ":"%char || Ascii.eqb c "*"%char.

Definition starts_with_slash (p : string) : bool :=
  match p with
  | String c _ => Ascii.eqb c "/"%char
  | EmptyString => false
  end.

(** Where the scan of a path stands: in plain text, in the name of a
    [:param], or in the name of a [*catchall]. *)
Inductive Scan : Type :=
| InStatic (after_slash : bool)
| InParam (named : bool)
| InCatchAll (named : bool).

(** The wildcards of a path as the tree takes them: every wildcard has a
    name, a name holds no further [:] or [*], a catch-all follows a slash
    and closes the path. *)
Fixpoint valid_wildcards (st : Scan) (p : string) : bool :=
  match p with
  | EmptyString =>
      match st with
      | InStatic _ => true
      | InParam named => named
      | InCatchAll named => named
      end
  | String c rest =>
      match st with
      | InStatic after_slash =>
          if Ascii.eqb c ":"%char then valid_wildcards (InParam false) rest
          else if Ascii.eqb c "*"%char then after_slash && valid_wildcards (InCatchAll false) rest
          else valid_wildcards (InStatic (Ascii.eqb c "/"%char)) rest
      | InParam named =>
          if Ascii.eqb c "/"%char then named && valid_wildcards (InStatic true) rest
          else if is_wildcard c then false
          else valid_wildcards (InParam true) rest
      | InCatchAll _ =>
          if Ascii.eqb c "/"%char || is_wildcard c then false
          else valid_wildcards (InCatchAll true) rest
      end
  end.

(** The part of a path in front of its first wildcard. *)
Fixpoint static_prefix (p : string) : string :=
  match p with
  | EmptyString => EmptyString
  | String c rest => if is_wildcard c then EmptyString else String c (static_prefix rest)
  end.

Definition has_wildcard (p : string) : bool := negb (String.eqb (static_prefix p) p).

(** Two paths of one method that the tree does not take together: the
    same path twice, or a wildcard of one standing where the other goes
    on.  Every pair that gin refuses is refused here; a [:param] beside a
    plain segment, which newer versions of gin take, is refused as well. *)
Definition path_conflict (a b : string) : bool :=
  String.eqb a b
  || (has_wildcard a && Stdlib.Strings.String.prefix (static_prefix a) b)
  || (has_wildcard b && Stdlib.Strings.String.prefix (static_prefix b) a).

Section Routing.

(** Handlers are function values in Go; the router only stores them. *)
Variable H : Type.

Record RouterGroup : Type := {
  Handlers : list H;
  basePath : string
}.

Record RouteInfo : Type := {
  Method : string;
  Path : string;
  HandlersChain : list H
}.

Record Engine : Type := {
  root : RouterGroup;
  trees : list RouteInfo
}.

(** [gin.New()] *)
Definition New : Engine :=
  {| root := {| Handlers := []; basePath := "/" |}; trees := [] |}.

(** [engine.Use(middleware...)] *)
Definition EngineUse (e : Engine) (middleware : list H) : Engine :=
  {| root := {| Handlers := Handlers (root e) ++ middleware;
                basePath := basePath (root e) |};
     trees := trees e |}.

(** [group.combineHandlers]: a fresh slice with the group's handlers
    first; gin asserts that the chain stays below [abortIndex]. *)
Definition combineHandlers (g : RouterGroup) (handlers : list H) : Go.outcome (list H) :=
  if Z.of_nat (length (Handlers g) + length handlers) <? abortIndex
  then Go.Returned (Handlers g ++ handlers)
  else Go.Panicked "too many handlers".

(** [group.Group(relativePath, handlers...)] *)
Definition Group (g : RouterGroup) (relativePath : string) (handlers : list H)
    : Go.outcome RouterGroup :=
  let! hs := combineHandlers g handlers in
  Go.Returned {| Handlers := hs; basePath := joinPaths (basePath g) relativePath |}.

(** [group.Use(middleware...)] *)
Definition Use (g : RouterGroup) (middleware : list H) : RouterGroup :=
  {| Handlers := Handlers g ++ middleware; basePath := basePath g |}.

(** [engine.addRoute(method, path, handlers)]: the three assertions of
    the engine, then the insertion into the tree of the method, which
    panics on a malformed wildcard and on a path that meets a registered
    one. *)
Definition addRoute (e : Engine) (httpMethod p : string) (handlers : list H)
    : Go.outcome Engine :=
  if negb (starts_with_slash p) then Go.Panicked "path must begin with '/'"
  else if String.eqb httpMethod "" then Go.Panicked "HTTP method can not be empty"
  else if Nat.eqb (length handlers) 0 then Go.Panicked "there must be at least one handler"
  else if negb (valid_wildcards (InStatic false) p) then Go.Panicked "invalid wildcard in path"
  else if existsb (fun rt => String.eqb (Method rt) httpMethod && path_conflict (Path rt) p)
            (trees e)
       then Go.Panicked "path conflicts with a registered route"
  else Go.Returned {| root := root e;
                      trees := trees e ++ [ {| Method := httpMethod; Path := p;
                                               HandlersChain := handlers |} ] |}.

(** [group.handle(httpMethod, relativePath, handlers)] *)
Definition handle (e : Engine) (g : RouterGroup) (httpMethod relativePath : string)
    (handlers : list H) : Go.outcome Engine :=
  let absolutePath := joinPaths (basePath g) relativePath in
  let! hs := combineHandlers g handlers in
  addRoute e httpMethod absolutePath hs.

Definition POST e g relativePath handlers := handle e g "POST" relativePath handlers.
Definition GET e g relativePath handlers := handle e g "GET" relativePath handlers.

(** Does the registered path [pattern] take the request path [p]?  A
    catch-all [*name] at the end takes every continuation. *)
Fixpoint path_matches (pattern p : string) : bool :=
  match pattern with
  | EmptyString => match p with EmptyString => true | _ => false end
  | String c pattern' =>
      if Ascii.eqb c "*"%char then true
      else match p with
           | EmptyString => false
           | String d p' => Ascii.eqb c d && path_matches pattern' p'
           end
  end.

Definition route_matches (httpMethod p : string) (r : RouteInfo) : bool :=
  String.eqb (Method r) httpMethod && path_matches (Path r) p.

(** The chain that serves a request, if a route takes it. *)
Definition find_chain (e : Engine) (httpMethod p : string) : option (list H) :=
  match List.find (route_matches httpMethod p) (trees e) with
  | Some r => Some (HandlersChain r)
  | None => None
  end.

End Routing.

Arguments Handlers {H} r.
Arguments basePath {H} r.
Arguments Method {H} r.
Arguments Path {H} r.
Arguments HandlersChain {H} r.
Arguments root {H} e.
Arguments trees {H} e.
Arguments New {H}.
Arguments EngineUse {H} e middleware.
Arguments Group {H} g relativePath handlers.
Arguments Use {H} g middleware.
Arguments addRoute {H} e httpMethod p handlers.
Arguments handle {H} e g httpMethod relativePath handlers.
Arguments POST {H} e g relativePath handlers.
Arguments GET {H} e g relativePath handlers.
Arguments find_chain {H} e httpMethod p.

End gin.

(** ** Package [uploader]: [pkg/uploader/http.go] *)

Module uploader.

(** [type ChannelUploadRateLimiter struct { *common.RateLimiter }] *)
Record ChannelUploadRateLimiter : Type := {
  RateLimiter : common.RateLimiter
}.

Definition NewChannelUploadRateLimiter (rc : common.UniversalClient)
    (config : config.Config) : Go.outcome ChannelUploadRateLimiter :=
  let! rl :=
    common.NewRateLimiter rc
      (config.Rps (config.Uploader_RateLimit_ChannelUpload config))
      (config.Burst (config.Uploader_RateLimit_ChannelUpload config))
      (time.mul (time.of_int64 (config.ExpirationHour (config.Redis config))) time.Hour) in
  Go.Returned {| RateLimiter := rl |}.

(** The function values that end up in handler chains. *)
Inductive HandlerFunc : Type :=
| H_Recovery                 (* gin.Recovery() *)
| H_CorsMiddleware           (* common.CorsMiddleware() *)
| H_LoggingMiddleware        (* common.LoggingMiddleware(logger) *)
| H_LimitBodySize            (* common.LimitBodySize(..) *)
| H_Metrics                  (* ginmiddleware.Handler("", mdlw) *)
| H_JWTForwardAuth           (* common.JWTForwardAuth() *)
| H_ChannelUploadRateLimit   (* r.ChannelUploadRateLimit() *)
| H_UploadFiles              (* r.UploadFiles *)
| H_GetPresignedUpload       (* r.GetPresignedUpload *)
| H_GetPresignedDownload     (* r.GetPresignedDownload *)
| H_Swagger.                 (* ginSwagger.WrapHandler(..) *)

(** The fields of [HttpServer] that routing and the gate read; the S3
    client, the presigner and the listener play no part here. *)
Record HttpServer : Type := {
  name : string;
  svr : gin.Engine HandlerFunc;
  httpPort : string;
  channelUploadRateLimiter : ChannelUploadRateLimiter;
  serveSwag : bool
}.

Definition NewGinServer : gin.Engine HandlerFunc :=
  let svr := gin.New in
  let svr := gin.EngineUse svr [H_Recovery] in
  let svr := gin.EngineUse svr [H_CorsMiddleware] in
  let svr := gin.EngineUse svr [H_LoggingMiddleware] in
  let svr := gin.EngineUse svr [H_LimitBodySize] in
  let svr := gin.EngineUse svr [H_Metrics] in
  svr.

Definition NewHttpServer (name : string) (config : config.Config)
    (svr : gin.Engine HandlerFunc) (port : string)
    (channelUploadRateLimiter : ChannelUploadRateLimiter) : HttpServer :=
  {| name := name;
     svr := svr;
     httpPort := port;
     channelUploadRateLimiter := channelUploadRateLimiter;
     serveSwag := config.Uploader_Http_Server_Swag config |}.

(** The handler returned by [(r *HttpServer) ChannelUploadRateLimit()]. *)
Definition ChannelUploadRateLimit : gin.Prog :=
  gin.RequestValue (fun v =>
    let '(channelID, ok) := Go.assert_uint64 v in
    if negb ok then
      gin.AbortWithStatus http.StatusUnauthorized gin.Return
    else
      gin.LimiterAllow (strconv.FormatUint channelID) (fun allow err =>
        match err with
        | Some msg =>
            gin.LoggerError msg
              (gin.AbortWithStatus http.StatusInternalServerError gin.Return)
        | None =>
            if negb allow then
              gin.AbortWithStatus http.StatusTooManyRequests gin.Return
            else
              gin.Next gin.Return
        end)).

(** [(r *HttpServer) RegisterRoutes()]: the engine of [r] after the
    registration. *)
Definition RegisterRoutes (r : HttpServer) : Go.outcome (gin.Engine HandlerFunc) :=
  let svr := svr r in
  let! uploaderGroup := gin.Group (gin.root svr) "/api/uploader" [] in
  let! uploadGroup := gin.Group uploaderGroup "/upload" [] in
  let uploadGroup := gin.Use uploadGroup [H_JWTForwardAuth] in
  let uploadGroup := gin.Use uploadGroup [H_ChannelUploadRateLimit] in
  let! svr := gin.POST svr uploadGroup "/files" [H_UploadFiles] in
  let! svr := gin.GET svr uploadGroup "/presigned" [H_GetPresignedUpload] in
  let! downloadGroup := gin.Group uploaderGroup "/download" [] in
  let downloadGroup := gin.Use downloadGroup [H_JWTForwardAuth] in
  let! svr := gin.GET svr downloadGroup "/presigned" [H_GetPresignedDownload] in
  if serveSwag r
  then gin.GET svr uploaderGroup "/swagger/*any" [H_Swagger]
  else Go.Returned svr.

(** The bodies behind the function values: the gate is the one above,
    the others are written elsewhere and come as [others]. *)
Definition body (others : HandlerFunc -> gin.Prog) (h : HandlerFunc) : gin.Prog :=
  match h with
  | H_ChannelUploadRateLimit => ChannelUploadRateLimit
  | _ => others h
  end.

(** A body that never calls the limiter. *)
Inductive no_allow : gin.Prog -> Prop :=
| na_Return : no_allow gin.Return
| na_RequestValue k : (forall v, no_allow (k v)) -> no_allow (gin.RequestValue k)
| na_SetRequestValue v k : no_allow k -> no_allow (gin.SetRequestValue v k)
| na_LoggerError msg k : no_allow k -> no_allow (gin.LoggerError msg k)
| na_AbortWithStatus code k : no_allow k -> no_allow (gin.AbortWithStatus code k)
| na_Respond code k : no_allow k -> no_allow (gin.Respond code k)
| na_Next k : no_allow k -> no_allow (gin.Next k).

(** The keys of the calls of [Allow] among the events of a request. *)
Fixpoint allow_keys (tr : list gin.Event) : list string :=
  match tr with
  | [] => []
  | gin.EvAllow key _ _ :: tr' => key :: allow_keys tr'
  | _ :: tr' => allow_keys tr'
  end.

(** One request against the server: the route is looked up and its chain
    runs against the limiter of [r]; [None] is gin's 404. *)
Definition ServeHTTP (others : HandlerFunc -> gin.Prog) (r : HttpServer)
    (engine : gin.Engine HandlerFunc) (env : common.CallEnv)
    (httpMethod p : string) (v : Go.any) (s : common.Store)
    : option (gin.World common.Store) :=
  match gin.find_chain engine httpMethod p with
  | Some chain =>
      Some (gin.serve
              (common.Allow (RateLimiter (channelUploadRateLimiter r)) env)
              (map (body others) chain) v s)
  | None => None
  end.

End uploader.
(** ** Notions the statements use *)

(** The bucket of a key holds [k] whole credits and was last touched at
    [t]; an absent entry stands for a full bucket. *)
Definition at_level (rl : common.RateLimiter) (t : Q) (k : nat)
    (o : option common.BucketState) : Prop :=
  match o with
  | Some st =>
      (common.tokens st == inject_Z (Z.of_nat k))%Q /\ (common.last_refill st == t)%Q
  | None => Z.of_nat k = common.burst rl
  end.

(** The stored credit count lies between zero and [burst]. *)
Definition bucket_ok (burst : Z) (o : option common.BucketState) : Prop :=
  match o with
  | Some st => (0 <= common.tokens st)%Q /\ (common.tokens st <= inject_Z burst)%Q
  | None => True
  end.


(** [f] only adds events to a request. *)
Definition extends {W : Type} (f : gin.World W -> gin.World W) : Prop :=
  forall w, gin.events w `prefix_of` gin.events (f w).

(** [f] neither calls the limiter nor changes the state behind it. *)
Definition quiet {W : Type} (f : gin.World W -> gin.World W) : Prop :=
  forall w, gin.limiter (f w) = gin.limiter w /\
            uploader.allow_keys (gin.events (f w)) = uploader.allow_keys (gin.events w).

(** The routes of the service over the handlers [base] of the engine. *)
Definition upload_files_route (base : list uploader.HandlerFunc)
    : gin.RouteInfo uploader.HandlerFunc :=
  {| gin.Method := "POST"; gin.Path := "/api/uploader/upload/files";
     gin.HandlersChain :=
       base ++ [uploader.H_JWTForwardAuth; uploader.H_ChannelUploadRateLimit;
                uploader.H_UploadFiles] |}.

Definition upload_presigned_route (base : list uploader.HandlerFunc)
    : gin.RouteInfo uploader.HandlerFunc :=
  {| gin.Method := "GET"; gin.Path := "/api/uploader/upload/presigned";
     gin.HandlersChain :=
       base ++ [uploader.H_JWTForwardAuth; uploader.H_ChannelUploadRateLimit;
                uploader.H_GetPresignedUpload] |}.

Definition download_presigned_route (base : list uploader.HandlerFunc)
    : gin.RouteInfo uploader.HandlerFunc :=
  {| gin.Method := "GET"; gin.Path := "/api/uploader/download/presigned";
     gin.HandlersChain := base ++ [uploader.H_JWTForwardAuth; uploader.H_GetPresignedDownload] |}.

Definition swagger_route (base : list uploader.HandlerFunc)
    : gin.RouteInfo uploader.HandlerFunc :=
  {| gin.Method := "GET"; gin.Path := "/api/uploader/swagger/*any";
     gin.HandlersChain := base ++ [uploader.H_Swagger] |}.

(** *** Sample values *)

Definition cfg_of (r : Q) (b h : Z) : config.Config :=
  {| config.Uploader_RateLimit_ChannelUpload := {| config.Rps := r; config.Burst := b |};
     config.Redis := {| config.ExpirationHour := h |};
     config.Uploader_Http_Server_Swag := true |}.

Definition rl_of (r : Q) (b : Z) : common.RateLimiter :=
  {| common.rc := common.Client "redis:6379"; common.rps := r; common.burst := b;
     common.ttl := time.mul 24 time.Hour |}.

(** One credit per second, five at most: the example of the specification. *)
Definition rl_demo : common.RateLimiter := rl_of 1 5.

Definition server_demo : uploader.HttpServer :=
  uploader.NewHttpServer "uploader" (cfg_of 1 5 24) uploader.NewGinServer "80"
    {| uploader.RateLimiter := rl_demo |}.

Definition outage_env : common.CallEnv :=
  {| common.now := 0; common.outage := Some "dial tcp: connection refused"%string |}.

(** A request whose context carries channel 42, at the point where the
    gate, handler number [i], is about to run. *)
Definition world_at (i : Z) (s : common.Store) : gin.World common.Store :=
  {| gin.ctx := {| gin.value := Go.AnyUint64 42; gin.index := i; gin.status := http.StatusOK;
                   gin.written := false |};
     gin.limiter := s; gin.events := [] |}.

Definition plain_handler (h : uploader.HandlerFunc) : gin.Prog :=
  match h with
  | uploader.H_JWTForwardAuth => gin.SetRequestValue (Go.AnyUint64 42) (gin.Next gin.Return)
  | uploader.H_UploadFiles
  | uploader.H_GetPresignedUpload
  | uploader.H_GetPresignedDownload
  | uploader.H_Swagger => gin.Respond http.StatusOK gin.Return
  | _ => gin.Next gin.Return
  end.

(** *** Further notions *)

(** The ttl argument of [NewChannelUploadRateLimiter], line 39 of
    [http.go]: [time.Duration(config.Redis.ExpirationHour)*time.Hour]. *)
Definition ttl_of_config (cfg : config.Config) : time.Duration :=
  time.mul (time.of_int64 (config.ExpirationHour (config.Redis cfg))) time.Hour.

(** The handlers [NewGinServer] gives to every route, in their order. *)
Definition global_middleware : list uploader.HandlerFunc :=
  [uploader.H_Recovery; uploader.H_CorsMiddleware; uploader.H_LoggingMiddleware;
   uploader.H_LimitBodySize; uploader.H_Metrics].

(** The handlers a route group or a route adds itself. *)
Definition is_route_handler (h : uploader.HandlerFunc) : bool :=
  match h with
  | uploader.H_JWTForwardAuth
  | uploader.H_ChannelUploadRateLimit
  | uploader.H_UploadFiles
  | uploader.H_GetPresignedUpload
  | uploader.H_GetPresignedDownload
  | uploader.H_Swagger => true
  | _ => false
  end.

(** A registered path without a catch-all. *)
Fixpoint no_star (s : string) : bool :=
  match s with
  | EmptyString => true
  | String c rest => negb (Ascii.eqb c "*"%char) && no_star rest
  end.

(** The requests the service routes. *)
Definition routed (swag : bool) (httpMethod p : string) : Prop :=
  (httpMethod = "POST" /\ p = "/api/uploader/upload/files")%string \/
  (httpMethod = "GET" /\ p = "/api/uploader/upload/presigned")%string \/
  (httpMethod = "GET" /\ p = "/api/uploader/download/presigned")%string \/
  (swag = true /\ httpMethod = "GET"%string /\
   Stdlib.Strings.String.prefix "/api/uploader/swagger/" p = true).

(** Calls of [Allow], one per key, the state behind the limiter going
    from one call to the next. *)
Fixpoint allow_seq {W : Type} (allow_impl : string -> W -> (bool * Go.error) * W)
    (keys : list string) (l : W) : list (bool * Go.error) * W :=
  match keys with
  | [] => ([], l)
  | key :: keys' =>
      let '(r, l1) := allow_impl key l in
      let '(rs, l2) := allow_seq allow_impl keys' l1 in
      (r :: rs, l2)
  end.

(** The status the gate leaves for a result of [Allow]; 200 is the status
    a fresh context starts with. *)
Definition gate_status (r : bool * Go.error) : Z :=
  match r with
  | (_, Some _) => http.StatusInternalServerError
  | (false, None) => http.StatusTooManyRequests
  | (true, None) => http.StatusOK
  end.

(** Requests of the channels [ids], one after the other, each in a fresh
    context through the gate alone: the statuses, and the state behind the
    limiter at the end. *)
Fixpoint gate_seq {W : Type} (allow_impl : string -> W -> (bool * Go.error) * W)
    (ids : list Z) (l : W) : list Z * W :=
  match ids with
  | [] => ([], l)
  | id :: ids' =>
      let w := gin.exec allow_impl (fun w' => w') uploader.ChannelUploadRateLimit
                 (gin.reset (Go.AnyUint64 id) l) in
      let '(sts, l2) := gate_seq allow_impl ids' (gin.limiter w) in
      (gin.status (gin.ctx w) :: sts, l2)
  end.

(** * The token bucket *)

Section TokenBucket.
Import common.

Lemma clamp_elapsed_max (d : Q) : (clamp_elapsed d == Qmax 0 d)%Q.
Proof.
  unfold clamp_elapsed.
  destruct (Qle_bool 0 d) eqn:E.
  - apply Qle_bool_iff in E. symmetry. apply Q.max_r; assumption.
  - assert (~ (0 <= d)%Q) by (rewrite <- Qle_bool_iff; congruence).
    symmetry. apply Q.max_l. lra.
Qed.

Lemma min_tokens_min (a b : Q) : (min_tokens a b == Qmin a b)%Q.
Proof.
  unfold min_tokens.
  destruct (Qle_bool a b) eqn:E.
  - apply Qle_bool_iff in E. symmetry. apply Q.min_l; assumption.
  - assert (~ (a <= b)%Q) by (rewrite <- Qle_bool_iff; congruence).
    symmetry. apply Q.min_r. lra.
Qed.

Lemma clamp_elapsed_nonneg (d : Q) : (0 <= clamp_elapsed d)%Q.
Proof.
  unfold clamp_elapsed. destruct (Qle_bool 0 d) eqn:E.
  - apply Qle_bool_iff in E. assumption.
  - lra.
Qed.

Lemma min_tokens_cases (a b : Q) :
  ((a <= b)%Q /\ min_tokens a b = a) \/ ((b < a)%Q /\ min_tokens a b = b).
Proof.
  unfold min_tokens. destruct (Qle_bool a b) eqn:E.
  - left. apply Qle_bool_iff in E. auto.
  - right. split; [|reflexivity].
    assert (~ (a <= b)%Q) by (rewrite <- Qle_bool_iff; congruence). lra.
Qed.

(** C1: on a prior state [(tokens, last_refill)], [evaluate] refills to
    [min(burst, tokens + elapsed * rps)], where [elapsed] is the time since
    [last_refill] and zero when that is negative; it allows and takes one
    credit exactly when the refilled count is at least 1, otherwise it
    denies and keeps the refilled count; the new [last_refill] is [now] in
    both cases. *)
Theorem evaluate_refill_decide (st : BucketState) (now rps : Q) (burst : Z) :
  let elapsed := Qmax 0 (now - last_refill st) in
  let refilled := Qmin (inject_Z burst) (tokens st + elapsed * rps) in
  let allow := fst (evaluate (Some st) now rps burst) in
  let st' := snd (evaluate (Some st) now rps burst) in
  ((now - last_refill st < 0)%Q -> (elapsed == 0)%Q) /\
  ((0 <= now - last_refill st)%Q -> (elapsed == now - last_refill st)%Q) /\
  (allow = true <-> (1 <= refilled)%Q) /\
  (allow = true -> (tokens st' == refilled - 1)%Q) /\
  (allow = false -> (tokens st' == refilled)%Q) /\
  last_refill st' = now.
Proof.
  intros elapsed refilled allow st'.
  assert (Hr : (min_tokens (inject_Z burst)
                  (tokens st + clamp_elapsed (now - last_refill st) * rps) == refilled)%Q).
  { rewrite min_tokens_min. unfold refilled, elapsed.
    rewrite clamp_elapsed_max. reflexivity. }
  split.
  { intros Hneg. unfold elapsed. apply Q.max_l. lra. }
  split.
  { intros Hpos. unfold elapsed. apply Q.max_r. exact Hpos. }
  subst allow st'. unfold evaluate. cbv zeta in *.
  destruct (Qle_bool 1 _) eqn:E; cbn [fst snd tokens last_refill].
  - apply Qle_bool_iff in E. rewrite Hr in E.
    split; [tauto|]. split; [|split; [discriminate|reflexivity]].
    intros _. rewrite Hr. reflexivity.
  - assert (E' : ~ (1 <= refilled)%Q).
    { rewrite <- Hr. rewrite <- Qle_bool_iff. congruence. }
    split; [split; [discriminate|tauto]|].
    split; [discriminate|]. split; [|reflexivity].
    intros _. exact Hr.
Qed.

Lemma evaluate_refill_decide_witness :
  (fst (evaluate (Some {| tokens := 0; last_refill := 10 |}) 12 1 5) = true <->
   (1 <= Qmin (inject_Z 5) (0 + Qmax 0 (12 - 10) * 1))%Q) /\
  last_refill (snd (evaluate (Some {| tokens := 0; last_refill := 10 |}) 12 1 5)) = 12%Q.
Proof.
  destruct (evaluate_refill_decide {| tokens := 0; last_refill := 10 |} 12 1 5)
    as (_ & _ & Hallow & _ & _ & Hlast).
  split; [exact Hallow|exact Hlast].
Defined.

Lemma evaluate_at_level (rl : RateLimiter) (t : Q) (k : nat) (o : option BucketState) :
  at_level rl t k o -> Z.of_nat k <= burst rl ->
  fst (evaluate o t (rps rl) (burst rl)) = negb (Nat.eqb k 0) /\
  at_level rl t (Nat.pred k) (Some (snd (evaluate o t (rps rl) (burst rl)))).
Proof.
  intros Hl Hk.
  set (st := match o with
             | Some st => st
             | None => {| tokens := inject_Z (burst rl); last_refill := t |}
             end).
  assert (Ht : (tokens st == inject_Z (Z.of_nat k))%Q /\ (last_refill st == t)%Q).
  { destruct o as [b|]; cbn in Hl; subst st; cbn.
    - exact Hl.
    - rewrite Hl. split; reflexivity. }
  destruct Ht as [Ht Hlast].
  assert (Hb : (inject_Z (Z.of_nat k) <= inject_Z (burst rl))%Q)
    by (rewrite <- Zle_Qle; exact Hk).
  assert (He : (clamp_elapsed (t - last_refill st) == 0)%Q).
  { unfold clamp_elapsed. destruct (Qle_bool 0 _) eqn:E; [|reflexivity]. lra. }
  assert (Hr : (min_tokens (inject_Z (burst rl))
                  (tokens st + clamp_elapsed (t - last_refill st) * rps rl)
                == inject_Z (Z.of_nat k))%Q).
  { destruct (min_tokens_cases (inject_Z (burst rl))
                (tokens st + clamp_elapsed (t - last_refill st) * rps rl))
      as [[Hle ->]|[Hlt ->]]; rewrite ?He in *; lra. }
  unfold evaluate. fold st. cbv zeta.
  destruct (Qle_bool 1 _) eqn:E; cbn [fst snd at_level tokens last_refill].
  - apply Qle_bool_iff in E. rewrite Hr in E.
    change 1%Q with (inject_Z 1) in E. rewrite <- Zle_Qle in E.
    destruct k as [|k']; [lia|]. split; [reflexivity|].
    split; [|reflexivity]. rewrite Hr. cbn [Nat.pred].
    rewrite Nat2Z.inj_succ. unfold Z.succ. rewrite inject_Z_plus.
    change (inject_Z 1) with 1%Q. lra.
  - assert (E' : ~ (1 <= inject_Z (Z.of_nat k))%Q).
    { rewrite <- Hr. rewrite <- Qle_bool_iff. congruence. }
    change 1%Q with (inject_Z 1) in E'. rewrite <- Zle_Qle in E'.
    destruct k as [|k']; [|lia]. split; [reflexivity|].
    split; [exact Hr|reflexivity].
Qed.

Lemma calls_at_level (rl : RateLimiter) (key : string) (t : Q) (k : nat) :
  forall s : Store,
    at_level rl t k (s !! key) -> Z.of_nat k <= burst rl ->
    fst (calls rl (replicate (k + 1) (reachable t)) key s)
      = replicate k (true, None) ++ [(false, None)].
Proof.
  induction k as [|k IH]; intros s Hl Hk.
  - cbn [Nat.add replicate calls Allow outage reachable now].
    destruct (evaluate_at_level rl t 0 (s !! key) Hl Hk) as [Ha _].
    destruct (evaluate _ _ _ _) as [a st']. cbn in Ha. subst a. reflexivity.
  - cbn [Nat.add replicate calls Allow outage reachable now].
    destruct (evaluate_at_level rl t (S k) (s !! key) Hl Hk) as [Ha Hl'].
    destruct (evaluate _ _ _ _) as [a st']. cbn in Ha, Hl'. subst a.
    specialize (IH (<[key := st']> s)).
    rewrite lookup_insert_eq in IH.
    specialize (IH Hl' ltac:(lia)).
    destruct (calls rl _ key _) as [rs s2]. cbn in IH |- *.
    rewrite IH. reflexivity.
Qed.

(** Between calls made at one instant no entry expires, as long as the
    ttl is not negative. *)
Lemma expire_same_instant (rl : RateLimiter) (key : string) (t : Q) (k : nat) (s : Store) :
  0 <= ttl rl -> at_level rl t k (s !! key) -> expire rl t key s = s.
Proof.
  intros Httl Hl. unfold expire. destruct (s !! key) as [st|]; [|reflexivity].
  destruct Hl as [_ Hlast]. unfold idle_longer_than_ttl.
  assert (Hle : (t - last_refill st <= time.Seconds (ttl rl))%Q).
  { assert (H0 : (t - last_refill st == 0)%Q) by (rewrite Hlast; ring).
    rewrite H0. unfold time.Seconds, Qle. cbn. lia. }
  apply Qle_bool_iff in Hle. rewrite Hle. reflexivity.
Qed.

(** C2: for a key without stored state and a limiter with [burst = B],
    [B >= 0], and any [rps], [B + 1] calls of [Allow] at one instant allow
    the first [B] and deny the last; the fresh bucket starts from
    [tokens = burst]. *)
Theorem fresh_key_burst (rl : RateLimiter) (key : string) (s : Store) (t : Q) (B : Z) :
  s !! key = None -> 0 <= B -> burst rl = B ->
  evaluate None t (rps rl) (burst rl)
    = evaluate (Some {| tokens := inject_Z B; last_refill := t |}) t (rps rl) (burst rl) /\
  fst (calls rl (replicate (Z.to_nat B + 1) (reachable t)) key s)
    = replicate (Z.to_nat B) (true, None) ++ [(false, None)].
Proof.
  intros Hs HB Hb. split.
  - rewrite Hb. reflexivity.
  - apply calls_at_level.
    + rewrite Hs. cbn. lia.
    + lia.
Qed.

Lemma fresh_key_burst_witness :
  fst (calls rl_demo (replicate (Z.to_nat 5 + 1) (reachable 0)) "chan:42" ∅)
    = replicate (Z.to_nat 5) (true, None) ++ [(false, None)].
Proof.
  apply (fresh_key_burst rl_demo "chan:42" ∅ 0%Q 5); [reflexivity|lia|reflexivity].
Defined.

(** The example of the specification: five calls pass, the sixth does
    not; two seconds later two more pass and the third does not. *)
Example spec_example_chan_42 :
  fst (calls rl_demo (map reachable [0; 0; 0; 0; 0; 0; 2; 2; 2]%Q) "chan:42" ∅)
    = map (fun a => (a, None)) [true; true; true; true; true; false; true; true; false].
Proof. vm_compute. reflexivity. Qed.

Section Invariant.
Variable rl : RateLimiter.
Hypothesis rps_nonneg : (0 <= rps rl)%Q.
Hypothesis burst_nonneg : 0 <= burst rl.

Lemma evaluate_ok (o : option BucketState) (now : Q) :
  bucket_ok (burst rl) o ->
  bucket_ok (burst rl) (Some (snd (evaluate o now (rps rl) (burst rl)))).
Proof.
  intros Ho.
  assert (Hb : (0 <= inject_Z (burst rl))%Q).
  { change 0%Q with (inject_Z 0). rewrite <- Zle_Qle. exact burst_nonneg. }
  set (st := match o with
             | Some st => st
             | None => {| tokens := inject_Z (burst rl); last_refill := now |}
             end).
  assert (Hst : (0 <= tokens st)%Q).
  { destruct o as [b|]; subst st; cbn in *; [tauto|exact Hb]. }
  unfold evaluate. fold st. cbv zeta.
  pose proof (clamp_elapsed_nonneg (now - last_refill st)) as He.
  set (el := clamp_elapsed (now - last_refill st)) in *.
  assert (Hm : (0 <= el * rps rl)%Q) by (apply Qmult_le_0_compat; assumption).
  destruct (min_tokens_cases (inject_Z (burst rl)) (tokens st + el * rps rl))
    as [[Hle Heq]|[Hlt Heq]]; rewrite Heq;
    (destruct (Qle_bool 1 _) eqn:E;
     [apply Qle_bool_iff in E
     |assert (~ (1 <= _)%Q) by (rewrite <- Qle_bool_iff; rewrite E; discriminate)]);
    cbn [bucket_ok snd tokens]; lra.
Qed.

Lemma apply_op_ok (key : string) (op : StoreOp) (s : Store) :
  bucket_ok (burst rl) (s !! key) ->
  bucket_ok (burst rl) (apply_op rl s op !! key).
Proof.
  intros Hs. destruct op as [env k|t k]; cbn [apply_op].
  - unfold Allow. destruct (outage env); [exact Hs|].
    pose proof (evaluate_ok (s !! k) (now env)) as Hev.
    destruct (evaluate _ _ _ _) as [a st']. cbn [snd] in *.
    destruct (decide (k = key)) as [->|Hne].
    + rewrite lookup_insert_eq. apply Hev. exact Hs.
    + rewrite lookup_insert_ne by exact Hne. exact Hs.
  - unfold expire. destruct (s !! k) as [b|] eqn:Ek; [|exact Hs].
    destruct (idle_longer_than_ttl rl t b); [|exact Hs].
    destruct (decide (k = key)) as [->|Hne].
    + rewrite lookup_delete_eq. exact I.
    + rewrite lookup_delete_ne by exact Hne. exact Hs.
Qed.

Lemma run_ops_ok (key : string) (ops : list StoreOp) : forall s : Store,
  bucket_ok (burst rl) (s !! key) ->
  bucket_ok (burst rl) (run_ops rl ops s !! key).
Proof.
  unfold run_ops. induction ops as [|op ops IH]; intros s Hs; cbn [fold_left].
  - exact Hs.
  - apply IH. apply apply_op_ok. exact Hs.
Qed.

End Invariant.

Lemma NewRateLimiter_returned (rc0 : UniversalClient) (r : Q) (b : Z)
    (t : time.Duration) (rl : RateLimiter) :
  NewRateLimiter rc0 r b t = Go.Returned rl ->
  rl = {| rc := rc0; rps := r; burst := b; ttl := t |} /\ (0 <= r)%Q /\ 0 <= b.
Proof.
  unfold NewRateLimiter. intros H.
  destruct (Qle_bool 0 r) eqn:Er; [|discriminate H].
  destruct (Z.leb_spec 0 b) as [Hb|Hb]; [|discriminate H].
  cbn in H. injection H as <-. apply Qle_bool_iff in Er. auto.
Qed.


(** C3: for every limiter that construction yields and every key, from
    an absent entry and after every step of every sequence of calls of
    [Allow] (and expirations), by whatever replica, the stored credit
    count lies between 0 and [burst]: no step stores a negative count or
    one above [burst]. *)
Theorem stored_tokens_bounded (rc0 : UniversalClient) (r : Q) (b : Z) (t : time.Duration)
    (rl : RateLimiter) (key : string) (ops : list StoreOp) (s : Store) :
  NewRateLimiter rc0 r b t = Go.Returned rl ->
  s !! key = None ->
  forall n : nat, bucket_ok (burst rl) (run_ops rl (take n ops) s !! key).
Proof.
  intros Hnew Hs n.
  destruct (NewRateLimiter_returned rc0 r b t rl Hnew) as (-> & Hr & Hb).
  apply run_ops_ok; try assumption.
  rewrite Hs. exact I.
Qed.

Lemma stored_tokens_bounded_witness :
  NewRateLimiter (Client "redis:6379") 1 5 (time.mul 24 time.Hour) = Go.Returned rl_demo /\
  bucket_ok 5 (run_ops rl_demo
                 (take 3 [OpAllow (reachable 0) "7"; OpExpire 1 "7";
                          OpAllow (reachable 3) "7"]) ∅ !! "7").
Proof.
  assert (Hnew : NewRateLimiter (Client "redis:6379") 1 5 (time.mul 24 time.Hour)
                 = Go.Returned rl_demo) by reflexivity.
  split; [exact Hnew|].
  apply (stored_tokens_bounded (Client "redis:6379") 1 5 (time.mul 24 time.Hour) rl_demo "7"
           [OpAllow (reachable 0) "7"; OpExpire 1 "7"; OpAllow (reachable 3) "7"] ∅ Hnew).
  reflexivity.
Defined.

End TokenBucket.

(** * Construction of the limiter *)

Section Construction.
Import common.

Lemma limiter_after_same (rl : RateLimiter) (cs : list (CallEnv * string)) :
  forall s : Store, fst (limiter_after rl cs s) = rl.
Proof.
  induction cs as [|[env key] cs IH]; intros s; cbn [limiter_after].
  - reflexivity.
  - unfold Allow_method. destruct (Allow rl env key s) as [r s']. apply IH.
Qed.

Lemma wrap64_small (z : Z) : Go.in_int64 z -> Go.wrap64 z = z.
Proof.
  unfold Go.in_int64, Go.wrap64. intros H.
  rewrite Z.mod_small by lia. lia.
Qed.

Lemma burst_below_one_denies (rl : RateLimiter) (env : CallEnv) (key : string) (s : Store) :
  burst rl < 1 -> fst (fst (Allow rl env key s)) = false.
Proof.
  intros Hb. unfold Allow. destruct (outage env); [reflexivity|].
  unfold evaluate. cbv zeta.
  match goal with |- context [min_tokens ?a ?b] =>
    destruct (min_tokens_cases a b) as [[Hle Heq]|[Hlt Heq]]; rewrite Heq end;
  (destruct (Qle_bool 1 _) eqn:E; [|reflexivity]);
  apply Qle_bool_iff in E;
  assert (Hq : (inject_Z (burst rl) < inject_Z 1)%Q) by (rewrite <- Zlt_Qlt; exact Hb);
  change (inject_Z 1) with 1%Q in Hq; lra.
Qed.

Lemma NewChannelUploadRateLimiter_returned (rc0 : UniversalClient) (cfg : config.Config)
    (l : uploader.ChannelUploadRateLimiter) :
  uploader.NewChannelUploadRateLimiter rc0 cfg = Go.Returned l ->
  uploader.RateLimiter l
  = {| rc := rc0;
       rps := config.Rps (config.Uploader_RateLimit_ChannelUpload cfg);
       burst := config.Burst (config.Uploader_RateLimit_ChannelUpload cfg);
       ttl := time.mul (time.of_int64 (config.ExpirationHour (config.Redis cfg))) time.Hour |}
  /\ (0 <= config.Rps (config.Uploader_RateLimit_ChannelUpload cfg))%Q
  /\ 0 <= config.Burst (config.Uploader_RateLimit_ChannelUpload cfg).
Proof.
  unfold uploader.NewChannelUploadRateLimiter. intros H.
  destruct (NewRateLimiter rc0 _ _ _) as [rl|msg] eqn:Hnew; [|discriminate H].
  cbn in H. injection H as <-. cbn [uploader.RateLimiter].
  exact (NewRateLimiter_returned _ _ _ _ _ Hnew).
Qed.

(** C7, amended: the limiter is built from the store handle and the
    triple handed to the constructor, [rps] and [burst] being those of
    [Uploader.RateLimit.ChannelUpload]; no call of [Allow] changes them;
    the ttl is the [int64] product of [Redis.ExpirationHour] and
    [time.Hour], which is [ExpirationHour] hours when [ExpirationHour]
    lies between -2562047 and 2562047 and wraps around beyond. *)
Theorem limiter_configuration (rc0 : UniversalClient) (cfg : config.Config) :
  ((0 <= config.Rps (config.Uploader_RateLimit_ChannelUpload cfg))%Q ->
   0 <= config.Burst (config.Uploader_RateLimit_ChannelUpload cfg) ->
   exists l, uploader.NewChannelUploadRateLimiter rc0 cfg = Go.Returned l) /\
  forall l : uploader.ChannelUploadRateLimiter,
    uploader.NewChannelUploadRateLimiter rc0 cfg = Go.Returned l ->
    rc (uploader.RateLimiter l) = rc0 /\
    rps (uploader.RateLimiter l) = config.Rps (config.Uploader_RateLimit_ChannelUpload cfg) /\
    burst (uploader.RateLimiter l) = config.Burst (config.Uploader_RateLimit_ChannelUpload cfg) /\
    ttl (uploader.RateLimiter l)
      = Go.wrap64 (config.ExpirationHour (config.Redis cfg) * time.Hour) /\
    (- 2562047 <= config.ExpirationHour (config.Redis cfg) <= 2562047 ->
     ttl (uploader.RateLimiter l) = config.ExpirationHour (config.Redis cfg) * time.Hour) /\
    forall (cs : list (CallEnv * string)) (s : Store),
      fst (limiter_after (uploader.RateLimiter l) cs s) = uploader.RateLimiter l.
Proof.
  split.
  - intros Hr Hb. unfold uploader.NewChannelUploadRateLimiter, NewRateLimiter.
    apply Qle_bool_iff in Hr. rewrite Hr.
    destruct (Z.leb_spec 0 (config.Burst (config.Uploader_RateLimit_ChannelUpload cfg)));
      [|lia].
    eexists. reflexivity.
  - intros l Hl.
    destruct (NewChannelUploadRateLimiter_returned rc0 cfg l Hl) as (Heq & _ & _).
    rewrite Heq. cbn [rc rps burst ttl].
    split; [reflexivity|]. split; [reflexivity|]. split; [reflexivity|].
    split; [reflexivity|]. split.
    + intros Hh. unfold time.mul, time.of_int64. apply wrap64_small.
      unfold Go.in_int64. change time.Hour with 3600000000000. lia.
    + intros cs s. apply limiter_after_same.
Qed.

Lemma limiter_configuration_witness :
  exists l : uploader.ChannelUploadRateLimiter,
    uploader.NewChannelUploadRateLimiter (Client "redis:6379") (cfg_of 1 5 24) = Go.Returned l /\
    rps (uploader.RateLimiter l) = 1%Q /\
    ttl (uploader.RateLimiter l) = 24 * time.Hour.
Proof.
  destruct (limiter_configuration (Client "redis:6379") (cfg_of 1 5 24)) as [Hex Hall].
  destruct Hex as [l Hl]; [cbn; lra|cbn; lia|].
  exists l. split; [exact Hl|].
  destruct (Hall l Hl) as (_ & Hrps & _ & _ & Httl & _).
  split; [exact Hrps|]. apply Httl. cbn. lia.
Defined.

(** C7 as stated fails on its last part: with [ExpirationHour = 2562048]
    construction returns a limiter, the multiplication by [time.Hour] has
    wrapped around and its ttl is not 2562048 hours. *)
Lemma limiter_ttl_wraps_around :
  ~ (forall (rc0 : UniversalClient) (cfg : config.Config)
            (l : uploader.ChannelUploadRateLimiter),
       Go.in_int64 (config.ExpirationHour (config.Redis cfg)) ->
       uploader.NewChannelUploadRateLimiter rc0 cfg = Go.Returned l ->
       ttl (uploader.RateLimiter l) = config.ExpirationHour (config.Redis cfg) * time.Hour).
Proof.
  intros H.
  specialize (H (Client "redis:6379") (cfg_of 1 5 2562048)
                {| uploader.RateLimiter :=
                     {| rc := Client "redis:6379"; rps := 1; burst := 5;
                        ttl := time.mul (time.of_int64 2562048) time.Hour |} |}).
  cbn in H. assert (Ht := H ltac:(unfold Go.in_int64; lia) eq_refl).
  vm_compute in Ht. discriminate Ht.
Qed.

Example ttl_of_2562048_hours :
  time.mul (time.of_int64 2562048) time.Hour = -9223371273709551616.
Proof. reflexivity. Qed.



(** A zero [rps] or [burst] is no error: construction returns, and with
    [burst = 0] every call is denied. *)
Example zero_burst_always_denies :
  exists l : uploader.ChannelUploadRateLimiter,
    uploader.NewChannelUploadRateLimiter (Client "redis:6379") (cfg_of 0 0 24) = Go.Returned l /\
    forall (env : CallEnv) (key : string) (s : Store),
      fst (fst (Allow (uploader.RateLimiter l) env key s)) = false.
Proof.
  eexists. split; [reflexivity|].
  intros env key s. apply burst_below_one_denies. cbn. lia.
Qed.

End Construction.

(** * Decimal formatting of the channel id *)

Section Decimal.
Import strconv.

Lemma append_cons (c : ascii) (s1 s2 : string) :
  (String c s1 ++ s2 = String c (s1 ++ s2))%string.
Proof. reflexivity. Qed.

Lemma append_empty (s : string) : ("" ++ s = s)%string.
Proof. reflexivity. Qed.

Lemma string_app_assoc (s1 s2 s3 : string) :
  ((s1 ++ s2) ++ s3 = s1 ++ (s2 ++ s3))%string.
Proof.
  induction s1 as [|c s1 IH]; [reflexivity|].
  rewrite !append_cons, IH. reflexivity.
Qed.

Lemma formatBits_acc (fuel : nat) : forall (u : Z) (acc : string),
  formatBits fuel u acc = (formatBits fuel u "" ++ acc)%string.
Proof.
  induction fuel as [|fuel IH]; intros u acc; cbn [formatBits].
  - reflexivity.
  - destruct (u <? 10); [reflexivity|].
    rewrite (IH _ (String _ acc)), (IH _ (String _ "")).
    rewrite string_app_assoc, append_cons, append_empty. reflexivity.
Qed.

Lemma formatBits_nonempty (fuel : nat) (u : Z) :
  formatBits (S fuel) u "" <> ""%string.
Proof.
  cbn [formatBits]. destruct (u <? 10); [discriminate|].
  rewrite formatBits_acc. destruct (formatBits fuel (u / 10) ""); discriminate.
Qed.

Lemma parse_digits_app (s1 : string) : forall (a : Z) (s2 : string),
  parse_digits a (s1 ++ s2) = parse_digits (parse_digits a s1) s2.
Proof.
  induction s1 as [|c s1 IH]; intros a s2; [reflexivity|].
  rewrite append_cons. cbn [parse_digits]. apply IH.
Qed.

Lemma all_digits_app (s1 s2 : string) :
  all_digits (s1 ++ s2) = all_digits s1 && all_digits s2.
Proof.
  induction s1 as [|c s1 IH]; [reflexivity|].
  rewrite append_cons. cbn [all_digits]. rewrite IH. apply andb_assoc.
Qed.

Lemma digit_spec (d : Z) :
  0 <= d < 10 -> digit_value (digit d) = d /\ is_digit (digit d) = true.
Proof.
  intros Hd. unfold digit_value, is_digit, digit.
  rewrite Ascii.nat_ascii_embedding by lia.
  split; [lia|]. cbv zeta.
  apply andb_true_intro. split; apply Z.leb_le; lia.
Qed.

Lemma formatBits_spec (fuel : nat) : forall u : Z,
  0 <= u < 10 ^ Z.of_nat fuel ->
  parse_digits 0 (formatBits fuel u "") = u /\ all_digits (formatBits fuel u "") = true.
Proof.
  induction fuel as [|fuel IH]; intros u Hu.
  - cbn in *. split; [lia|reflexivity].
  - cbn [formatBits]. destruct (Z.ltb_spec u 10) as [Hlt|Hge].
    + destruct (digit_spec u ltac:(lia)) as [Hv Hd].
      cbn. rewrite Hv, Hd. split; [lia|reflexivity].
    + rewrite formatBits_acc.
      rewrite parse_digits_app, all_digits_app.
      assert (Hq : 0 <= u / 10 < 10 ^ Z.of_nat fuel).
      { split; [apply Z.div_pos; lia|].
        apply Z.div_lt_upper_bound; [lia|].
        rewrite Nat2Z.inj_succ, Z.pow_succ_r in Hu by lia. lia. }
      destruct (IH _ Hq) as [Hp Ha]. rewrite Hp, Ha.
      destruct (digit_spec (u mod 10) ltac:(apply Z.mod_pos_bound; lia)) as [Hv Hd].
      cbn. rewrite Hv, Hd. split; [|reflexivity].
      pose proof (Z.div_mod u 10 ltac:(lia)). lia.
Qed.

Lemma FormatUint_spec (i : Z) :
  Go.in_uint64 i ->
  FormatUint i <> ""%string /\ all_digits (FormatUint i) = true /\
  parse_digits 0 (FormatUint i) = i.
Proof.
  intros Hi. unfold FormatUint. split; [apply formatBits_nonempty|].
  destruct (formatBits_spec 20 i) as [Hp Ha]; [|tauto].
  unfold Go.in_uint64 in Hi. change (10 ^ Z.of_nat 20) with 100000000000000000000.
  change (2 ^ 64) with 18446744073709551616 in Hi. lia.
Qed.
End Decimal.

(** * The gate *)

Lemma allow_keys_app (tr1 tr2 : list gin.Event) :
  uploader.allow_keys (tr1 ++ tr2) = uploader.allow_keys tr1 ++ uploader.allow_keys tr2.
Proof.
  induction tr1 as [|e tr1 IH]; [reflexivity|].
  destruct e; cbn; rewrite ?IH; reflexivity.
Qed.

Section Gate.
Import gin.
Variable W : Type.
Variable allow_impl : string -> W -> (bool * Go.error) * W.

Local Abbreviation World := (gin.World W).
Local Abbreviation exec := (gin.exec allow_impl).
Local Abbreviation run_handlers := (gin.run_handlers allow_impl).
Local Abbreviation gate := uploader.ChannelUploadRateLimit.

Lemma header_frame (code : Z) (w : World) :
  limiter (WriteHeaderNow (WriteHeader code w)) = limiter w /\
  events (WriteHeaderNow (WriteHeader code w)) = events w /\
  value (ctx (WriteHeaderNow (WriteHeader code w))) = value (ctx w) /\
  index (ctx (WriteHeaderNow (WriteHeader code w))) = index (ctx w).
Proof.
  unfold WriteHeaderNow, WriteHeader.
  destruct ((0 <? code) && negb (status (ctx w) =? code));
    destruct (written (ctx w)) eqn:E; cbn; rewrite ?E; cbn; auto.
Qed.

Lemma abort_with_status_spec (code : Z) (w : World) :
  0 < code ->
  status (ctx (abort_with_status code w))
    = (if written (ctx w) then status (ctx w) else code) /\
  written (ctx (abort_with_status code w)) = true /\
  index (ctx (abort_with_status code w)) = abortIndex /\
  limiter (abort_with_status code w) = limiter w /\
  events (abort_with_status code w) = events w ++ [EvAbort code].
Proof.
  intros Hc. unfold abort_with_status, WriteHeaderNow, WriteHeader.
  destruct (Z.ltb_spec 0 code) as [_|]; [|lia].
  destruct (Z.eqb_spec (status (ctx w)) code) as [Heq|Hne];
    destruct (written (ctx w)) eqn:E; cbn; rewrite ?E; cbn; auto.
Qed.

Lemma gate_unauthorized (next : World -> World) (w : World) :
  (forall n : Z, value (ctx w) <> Go.AnyUint64 n) ->
  exec next gate w = abort_with_status http.StatusUnauthorized w.
Proof.
  intros Hv. unfold gate. cbn [gin.exec].
  destruct (value (ctx w)) as [|n| | | |] eqn:E; try reflexivity.
  destruct (Hv n). reflexivity.
Qed.

Lemma gate_called (next : World -> World) (w : World) (id : Z)
    (a : bool) (e : Go.error) (l : W) :
  value (ctx w) = Go.AnyUint64 id ->
  allow_impl (strconv.FormatUint id) (limiter w) = ((a, e), l) ->
  exec next gate w =
    let w1 := log (EvAllow (strconv.FormatUint id) a e) (set_limiter l w) in
    match e with
    | Some msg =>
        abort_with_status http.StatusInternalServerError (log (EvLog msg) w1)
    | None =>
        if a then next (log EvNext w1)
        else abort_with_status http.StatusTooManyRequests w1
    end.
Proof.
  intros Hv Ha. unfold gate. cbn [gin.exec]. rewrite Hv. cbn [Go.assert_uint64 negb].
  cbn [gin.exec]. rewrite Ha. destruct e as [msg|]; [reflexivity|].
  destruct a; reflexivity.
Qed.

Lemma log_extends (e : Event) : extends (W := W) (log e).
Proof. intros w. cbn. apply prefix_app_r. reflexivity. Qed.

Lemma exec_extends (next : World -> World) (p : Prog) :
  extends next -> extends (exec next p).
Proof.
  intros Hn. induction p as [|k IH|v k IH|key k IH|msg k IH|code k IH|code k IH|k IH];
    intros w; cbn [gin.exec].
  - reflexivity.
  - apply IH.
  - etransitivity; [|apply IH]. reflexivity.
  - destruct (allow_impl key (limiter w)) as [[a e] l].
    etransitivity; [|apply IH]. cbn. apply prefix_app_r. reflexivity.
  - etransitivity; [|apply IH]. apply log_extends.
  - etransitivity; [|apply IH]. unfold abort_with_status. cbn [log set_index events].
    destruct (header_frame code w) as (_ & -> & _). apply prefix_app_r. reflexivity.
  - etransitivity; [|apply IH]. unfold respond. cbn [log events].
    destruct (header_frame code w) as (_ & -> & _). apply prefix_app_r. reflexivity.
  - etransitivity; [|apply IH]. etransitivity; [|apply Hn]. apply log_extends.
Qed.

Lemma run_handlers_extends (hs : list Prog) (fuel : nat) :
  extends (run_handlers fuel hs).
Proof.
  induction fuel as [|fuel IH]; intros w; cbn [gin.run_handlers]; [reflexivity|].
  destruct (_ && _); [|reflexivity].
  destruct (hs !! _) as [h|]; [|reflexivity].
  etransitivity; [|apply IH]. cbn [bump set_index events].
  etransitivity; [|apply exec_extends].
  - apply log_extends.
  - intros w'. etransitivity; [|apply IH]. reflexivity.
Qed.

Lemma run_handlers_aborted (hs : list Prog) (fuel : nat) (w : World) :
  (length hs < 63)%nat -> index (ctx w) = abortIndex ->
  run_handlers fuel hs (bump w) = bump w.
Proof.
  intros Hl Hi. destruct fuel as [|fuel]; [reflexivity|].
  cbn [gin.run_handlers]. unfold bump at 1 2. cbn [set_index ctx index].
  rewrite Hi. change (wrap8 (abortIndex + 1)) with 64.
  destruct (Z.ltb_spec 64 (Z.of_nat (length hs))); [lia|].
  rewrite andb_false_r. reflexivity.
Qed.

Lemma run_handlers_at (hs : list Prog) (i : nat) (h : Prog) (fuel : nat) (w : World) :
  hs !! i = Some h -> index (ctx w) = Z.of_nat i ->
  run_handlers (S fuel) hs w =
    run_handlers fuel hs
      (bump (exec (fun w' => run_handlers fuel hs (bump w')) h
                 (log (EvHandler (Z.of_nat i)) w))).
Proof.
  intros Hh Hi. cbn [gin.run_handlers]. rewrite Hi, Nat2Z.id, Hh.
  apply lookup_lt_Some in Hh.
  destruct (Z.leb_spec 0 (Z.of_nat i)); [|lia].
  destruct (Z.ltb_spec (Z.of_nat i) (Z.of_nat (length hs))); [|lia].
  reflexivity.
Qed.

(** C5: when the call of [Allow] made by the gate returns an error, the
    gate calls [AbortWithStatus(500)], not the 429 of a denial: the
    context is aborted, the response status is 500 unless a response had
    gone out before the gate (gin keeps a status already written), and no
    later handler of the chain, the upload handler among them, is
    entered; this holds whatever boolean comes with the error. *)
Theorem gate_fails_closed (w : World) (id : Z) (a : bool) (msg : string) (l : W) :
  value (ctx w) = Go.AnyUint64 id ->
  allow_impl (strconv.FormatUint id) (limiter w) = ((a, Some msg), l) ->
  (forall next : World -> World,
     (written (ctx w) = false -> status (ctx (exec next gate w)) = 500) /\
     (written (ctx w) = true -> status (ctx (exec next gate w)) = status (ctx w)) /\
     written (ctx (exec next gate w)) = true /\
     index (ctx (exec next gate w)) = abortIndex /\
     events (exec next gate w)
       = events w ++ [EvAllow (strconv.FormatUint id) a (Some msg); EvLog msg; EvAbort 500]) /\
  http.StatusInternalServerError = 500 /\
  http.StatusInternalServerError <> http.StatusTooManyRequests /\
  (forall (hs : list Prog) (i fuel : nat),
     hs !! i = Some gate -> index (ctx w) = Z.of_nat i -> (length hs < 63)%nat ->
     (written (ctx w) = false -> status (ctx (run_handlers (S fuel) hs w)) = 500) /\
     events (run_handlers (S fuel) hs w)
       = events w ++ [EvHandler (Z.of_nat i);
                      EvAllow (strconv.FormatUint id) a (Some msg); EvLog msg; EvAbort 500]).
Proof.
  intros Hv Ha. split; [|split; [reflexivity|split; [discriminate|]]].
  - intros next. rewrite (gate_called next w id a (Some msg) l Hv Ha). cbv zeta.
    destruct (abort_with_status_spec http.StatusInternalServerError
                (log (EvLog msg)
                   (log (EvAllow (strconv.FormatUint id) a (Some msg)) (set_limiter l w)))
                ltac:(reflexivity)) as (Hst & Hwr & Hix & _ & Hev).
    rewrite Hst, Hwr, Hix, Hev. cbn [log set_limiter ctx events].
    repeat split.
    + intros ->. reflexivity.
    + intros ->. reflexivity.
    + rewrite <- !app_assoc. reflexivity.
  - intros hs i fuel Hh Hi Hl.
    rewrite (run_handlers_at hs i gate fuel w Hh Hi).
    rewrite (gate_called _ (log (EvHandler (Z.of_nat i)) w) id a (Some msg) l Hv Ha).
    cbv zeta.
    destruct (abort_with_status_spec http.StatusInternalServerError
                (log (EvLog msg)
                   (log (EvAllow (strconv.FormatUint id) a (Some msg))
                      (set_limiter l (log (EvHandler (Z.of_nat i)) w))))
                ltac:(reflexivity)) as (Hst & _ & Hix & _ & Hev).
    rewrite run_handlers_aborted by assumption.
    cbn [bump set_index ctx status events]. rewrite Hst, Hev.
    cbn [log set_limiter ctx events]. split.
    + intros ->. reflexivity.
    + rewrite <- !app_assoc. reflexivity.
Qed.

(** C6: with a channel id in the request, the gate hands the request to
    [c.Next()] when [Allow] returns [allow = true] without an error, and
    calls [AbortWithStatus(429)] when it returns [allow = false] without
    an error, which makes the response status 429 unless a response had
    gone out before; in a chain, the handler after the gate is entered
    exactly when [Allow] returned [allow = true] and no error. *)
Theorem gate_passes_iff_allowed (w : World) (id : Z) (a : bool) (e : Go.error) (l : W) :
  value (ctx w) = Go.AnyUint64 id ->
  allow_impl (strconv.FormatUint id) (limiter w) = ((a, e), l) ->
  let w1 := log (EvAllow (strconv.FormatUint id) a e) (set_limiter l w) in
  (a = true -> e = None ->
   forall next : World -> World, exec next gate w = next (log EvNext w1)) /\
  (a = false -> e = None ->
   forall next : World -> World,
     exec next gate w = abort_with_status http.StatusTooManyRequests w1 /\
     (written (ctx w) = false -> status (ctx (exec next gate w)) = 429) /\
     index (ctx (exec next gate w)) = abortIndex /\
     events (exec next gate w)
       = events w ++ [EvAllow (strconv.FormatUint id) false None; EvAbort 429]) /\
  (forall (hs : list Prog) (i fuel : nat) (tail : list Event),
     hs !! i = Some gate -> index (ctx w) = Z.of_nat i ->
     (S i < length hs < 63)%nat ->
     events (run_handlers (S (S fuel)) hs w) = events w ++ tail ->
     (In (EvHandler (Z.of_nat (S i))) tail <-> a = true /\ e = None)).
Proof.
  intros Hv Ha w1. split; [|split].
  - intros -> -> next.
    rewrite (gate_called next w id true None l Hv Ha). reflexivity.
  - intros -> -> next.
    rewrite (gate_called next w id false None l Hv Ha). cbv zeta. fold w1.
    destruct (abort_with_status_spec http.StatusTooManyRequests w1 ltac:(reflexivity))
      as (Hst & _ & Hix & _ & Hev).
    split; [reflexivity|]. rewrite Hst, Hix, Hev. subst w1. cbn [log set_limiter ctx events].
    split; [intros ->; reflexivity|]. split; [reflexivity|].
    rewrite <- !app_assoc. reflexivity.
  - intros hs i fuel tail Hh Hi [Hlt Hl] Hev.
    rewrite (run_handlers_at hs i gate (S fuel) w Hh Hi) in Hev.
    rewrite (gate_called _ (log (EvHandler (Z.of_nat i)) w) id a e l Hv Ha)
      in Hev.
    cbv zeta in Hev.
    destruct e as [msg|]; [|destruct a].
    + rewrite run_handlers_aborted in Hev
        by (assumption || apply abort_with_status_spec; reflexivity).
      cbn [bump set_index events] in Hev.
      destruct (abort_with_status_spec http.StatusInternalServerError
                  (log (EvLog msg)
                     (log (EvAllow (strconv.FormatUint id) a (Some msg))
                        (set_limiter l (log (EvHandler (Z.of_nat i)) w))))
                  ltac:(reflexivity)) as (_ & _ & _ & _ & Hab).
      rewrite Hab in Hev. cbn [log set_limiter events] in Hev.
      rewrite <- !app_assoc in Hev. apply app_inv_head in Hev. subst tail.
      split; [|intros [_ ?]; discriminate].
      cbn. intros [H|[H|[H|[H|[]]]]]; try discriminate. injection H. lia.
    + destruct (lookup_lt_is_Some_2 hs (S i) Hlt) as [h Hh'].
      set (w2 := log EvNext _) in Hev.
      assert (Hi2 : index (ctx (bump w2)) = Z.of_nat (S i)).
      { subst w2. cbn. rewrite Hi. unfold wrap8.
        rewrite Z.mod_small by lia. lia. }
      rewrite (run_handlers_at hs (S i) h fuel _ Hh' Hi2) in Hev.
      split; [intros _; auto|intros _].
      match type of Hev with
      | events (gin.run_handlers _ _ _ (bump (gin.run_handlers _ _ _
                  (bump (gin.exec _ ?nx _ ?w3))))) = _ =>
          pose proof (exec_extends nx h
                        (fun w' => run_handlers_extends hs fuel (bump w')) w3)
            as P1;
          pose proof (run_handlers_extends hs fuel
                        (bump (exec nx h w3))) as P2;
          pose proof (run_handlers_extends hs (S fuel)
                        (bump (run_handlers fuel hs
                           (bump (exec nx h w3))))) as P3
      end.
      destruct P1 as [k1 E1]. destruct P2 as [k2 E2]. destruct P3 as [k3 E3].
      cbn [bump set_index events] in E2, E3.
      rewrite E3, E2, E1 in Hev. subst w2. cbn in Hev.
      rewrite <- !app_assoc in Hev. apply app_inv_head in Hev. subst tail.
      cbn. right. right. right. left. reflexivity.
    + rewrite run_handlers_aborted in Hev
        by (assumption || apply abort_with_status_spec; reflexivity).
      cbn [bump set_index events] in Hev.
      destruct (abort_with_status_spec http.StatusTooManyRequests
                  (log (EvAllow (strconv.FormatUint id) false None)
                     (set_limiter l (log (EvHandler (Z.of_nat i)) w)))
                  ltac:(reflexivity)) as (_ & _ & _ & _ & Hab).
      rewrite Hab in Hev. cbn [log set_limiter events] in Hev.
      rewrite <- !app_assoc in Hev. apply app_inv_head in Hev. subst tail.
      split; [|intros [? _]; discriminate].
      cbn. intros [H|[H|[H|[]]]]; try discriminate. injection H. lia.
Qed.

(** C9: when the request context carries no [uint64] channel id (no value
    at all, or a value of another type) the gate calls
    [AbortWithStatus(401)], makes no call of [Allow] and leaves the state
    behind the limiter as it was, the response status being 401 unless a
    response had gone out before; when it carries one, the gate calls
    [Allow] once, with the decimal digits of the id as key, which is
    never the empty string. *)
Theorem gate_key_is_channel_id (w : World) :
  ((forall n : Z, value (ctx w) <> Go.AnyUint64 n) ->
   forall next : World -> World,
     (written (ctx w) = false -> status (ctx (exec next gate w)) = 401) /\
     index (ctx (exec next gate w)) = abortIndex /\
     limiter (exec next gate w) = limiter w /\
     events (exec next gate w) = events w ++ [EvAbort 401]) /\
  (forall id : Z,
     value (ctx w) = Go.AnyUint64 id -> Go.in_uint64 id ->
     uploader.allow_keys (events (exec (fun w' => w') gate w))
       = uploader.allow_keys (events w) ++ [strconv.FormatUint id] /\
     strconv.FormatUint id <> ""%string /\
     strconv.all_digits (strconv.FormatUint id) = true /\
     strconv.parse_digits 0 (strconv.FormatUint id) = id).
Proof.
  split.
  - intros Hv next. rewrite (gate_unauthorized next w Hv).
    destruct (abort_with_status_spec http.StatusUnauthorized w ltac:(reflexivity))
      as (Hst & _ & Hix & Hlim & Hev).
    rewrite Hst, Hix, Hlim, Hev.
    split; [intros ->; reflexivity|]. auto.
  - intros id Hv Hid. split; [|apply FormatUint_spec; exact Hid].
    destruct (allow_impl (strconv.FormatUint id) (limiter w)) as [[a e] l] eqn:Ha.
    rewrite (gate_called _ w id a e l Hv Ha). cbv zeta.
    destruct e as [msg|]; [|destruct a].
    + destruct (abort_with_status_spec http.StatusInternalServerError
                  (log (EvLog msg)
                     (log (EvAllow (strconv.FormatUint id) a (Some msg)) (set_limiter l w)))
                  ltac:(reflexivity)) as (_ & _ & _ & _ & Hev).
      rewrite Hev. cbn [log set_limiter events]. rewrite !allow_keys_app. cbn.
      rewrite ?app_nil_r. reflexivity.
    + cbn [log set_limiter events]. rewrite !allow_keys_app. cbn.
      rewrite ?app_nil_r. reflexivity.
    + destruct (abort_with_status_spec http.StatusTooManyRequests
                  (log (EvAllow (strconv.FormatUint id) false None) (set_limiter l w))
                  ltac:(reflexivity)) as (_ & _ & _ & _ & Hev).
      rewrite Hev. cbn [log set_limiter events]. rewrite !allow_keys_app. cbn.
      rewrite ?app_nil_r. reflexivity.
Qed.
End Gate.

Section GateSamples.
Import gin.

Lemma gate_fails_closed_witness :
  status (ctx (run_handlers (common.Allow rl_demo outage_env) 3
                 [plain_handler uploader.H_JWTForwardAuth; uploader.ChannelUploadRateLimit;
                  plain_handler uploader.H_UploadFiles]
                 (world_at 1 ∅))) = 500 /\
  events (run_handlers (common.Allow rl_demo outage_env) 3
            [plain_handler uploader.H_JWTForwardAuth; uploader.ChannelUploadRateLimit;
             plain_handler uploader.H_UploadFiles]
            (world_at 1 ∅))
    = [EvHandler 1;
       EvAllow "42" false (Some "dial tcp: connection refused"%string);
       EvLog "dial tcp: connection refused"; EvAbort 500].
Proof.
  destruct (gate_fails_closed common.Store (common.Allow rl_demo outage_env)
              (world_at 1 ∅) 42 false "dial tcp: connection refused" ∅)
    as (_ & _ & _ & Hchain).
  - reflexivity.
  - reflexivity.
  - destruct (Hchain [plain_handler uploader.H_JWTForwardAuth; uploader.ChannelUploadRateLimit;
                      plain_handler uploader.H_UploadFiles] 1%nat 2%nat) as [Hst Hev].
    + reflexivity.
    + reflexivity.
    + cbn. lia.
    + split; [apply Hst; reflexivity|exact Hev].
Defined.

Lemma gate_passes_iff_allowed_witness :
  exec (common.Allow rl_demo (common.reachable 0)) (fun w' => w')
    uploader.ChannelUploadRateLimit (world_at 1 ∅)
  = log EvNext
      (log (EvAllow "42" true None)
         (set_limiter (snd (common.Allow rl_demo (common.reachable 0) "42" ∅))
            (world_at 1 ∅))).
Proof.
  destruct (gate_passes_iff_allowed common.Store (common.Allow rl_demo (common.reachable 0))
              (world_at 1 ∅) 42 true None
              (snd (common.Allow rl_demo (common.reachable 0) "42" ∅)))
    as (Hpass & _ & _).
  - reflexivity.
  - vm_compute. reflexivity.
  - apply (Hpass eq_refl eq_refl (fun w' => w')).
Defined.

Lemma gate_key_is_channel_id_witness :
  status (ctx (exec (common.Allow rl_demo (common.reachable 0)) (fun w' => w')
                 uploader.ChannelUploadRateLimit (reset Go.AnyNil ∅))) = 401 /\
  uploader.allow_keys
    (events (exec (common.Allow rl_demo (common.reachable 0)) (fun w' => w')
               uploader.ChannelUploadRateLimit (world_at 1 ∅)))
  = [] ++ [strconv.FormatUint 42] /\
  strconv.FormatUint 42 <> ""%string.
Proof.
  split.
  - destruct (gate_key_is_channel_id common.Store (common.Allow rl_demo (common.reachable 0))
                (reset Go.AnyNil ∅)) as [H401 _].
    destruct (H401 ltac:(intros n; discriminate) (fun w' => w')) as [Hst _].
    apply Hst. reflexivity.
  - destruct (gate_key_is_channel_id common.Store (common.Allow rl_demo (common.reachable 0))
                (world_at 1 ∅)) as [_ Hkey].
    destruct (Hkey 42) as (Hk & Hne & _ & _).
    + reflexivity.
    + unfold Go.in_uint64. lia.
    + split; [exact Hk|exact Hne].
Defined.

(** A channel id of another type than [uint64] counts as none: 401 and
    no call of [Allow]. *)
Example gate_rejects_other_types :
  Forall (fun v =>
            let w := exec (common.Allow rl_demo (common.reachable 0)) (fun w' => w')
                       uploader.ChannelUploadRateLimit (reset v ∅) in
            status (ctx w) = 401 /\ events w = [EvAbort 401] /\ limiter w = ∅)
    [Go.AnyNil; Go.AnyInt64 42; Go.AnyInt 42; Go.AnyString "42"; Go.AnyBool true].
Proof. repeat constructor. Qed.

(** After a response has gone out, [AbortWithStatus] aborts but the
    status stays: gin's writer keeps what was written. *)
Example status_stays_once_written :
  let w := exec (common.Allow rl_demo outage_env) (fun w' => w')
             (Respond 201 uploader.ChannelUploadRateLimit) (world_at 1 ∅) in
  status (ctx w) = 201 /\ index (ctx w) = abortIndex.
Proof. vm_compute. split; reflexivity. Qed.

(** An upload through the whole chain of the service: the first request
    of channel 42 passes the gate and reaches the upload handler; with the
    store out of reach it stops at the gate with 500. *)
Example upload_served :
  let chain := map (uploader.body plain_handler)
                 [uploader.H_JWTForwardAuth; uploader.H_ChannelUploadRateLimit;
                  uploader.H_UploadFiles] in
  events (serve (common.Allow rl_demo (common.reachable 0)) chain Go.AnyNil ∅)
    = [EvHandler 0; EvNext; EvHandler 1; EvAllow "42" true None; EvNext;
       EvHandler 2; EvRespond 200] /\
  events (serve (common.Allow rl_demo outage_env) chain Go.AnyNil ∅)
    = [EvHandler 0; EvNext; EvHandler 1;
       EvAllow "42" false (Some "dial tcp: connection refused"%string);
       EvLog "dial tcp: connection refused"; EvAbort 500] /\
  status (ctx (serve (common.Allow rl_demo outage_env) chain Go.AnyNil ∅)) = 500.
Proof. vm_compute. repeat split. Qed.

(** [strconv.FormatUint] at the ends of [uint64]. *)
Example FormatUint_ends :
  strconv.FormatUint 0 = "0"%string /\
  strconv.FormatUint 18446744073709551615 = "18446744073709551615"%string.
Proof. split; reflexivity. Qed.

End GateSamples.

(** * The route table *)

Section Quiet.
Import gin.
Variable W : Type.
Variable allow_impl : string -> W -> (bool * Go.error) * W.

Local Abbreviation World := (gin.World W).

Lemma quiet_compose (f g : World -> World) :
  quiet f -> quiet g -> quiet (fun w => g (f w)).
Proof.
  intros Hf Hg w. destruct (Hf w) as [F1 F2]. destruct (Hg (f w)) as [G1 G2].
  split; congruence.
Qed.

Lemma quiet_log (e : Event) :
  uploader.allow_keys [e] = [] -> quiet (W := W) (log e).
Proof.
  intros He w. split; [reflexivity|]. cbn.
  rewrite allow_keys_app, He. apply app_nil_r.
Qed.

Lemma quiet_bump : quiet (W := W) bump.
Proof. intros w. split; reflexivity. Qed.

Lemma exec_quiet (next : World -> World) (p : Prog) :
  uploader.no_allow p -> quiet next -> quiet (gin.exec allow_impl next p).
Proof.
  intros Hp Hn. induction Hp as [|k _ IH|v k _ IH|msg k _ IH|code k _ IH|code k _ IH|k _ IH];
    cbn [gin.exec].
  - intros w. split; reflexivity.
  - intros w. apply IH.
  - apply (quiet_compose (set_value v)); [|exact IH]. intros w; split; reflexivity.
  - apply (quiet_compose (log (EvLog msg))); [|exact IH]. apply quiet_log. reflexivity.
  - apply (quiet_compose (abort_with_status code)); [|exact IH].
    intros w. unfold abort_with_status. cbn [log set_index limiter events].
    destruct (header_frame W code w) as (-> & -> & _).
    split; [reflexivity|]. rewrite allow_keys_app. apply app_nil_r.
  - apply (quiet_compose (respond code)); [|exact IH].
    intros w. unfold respond. cbn [log limiter events].
    destruct (header_frame W code w) as (-> & -> & _).
    split; [reflexivity|]. rewrite allow_keys_app. apply app_nil_r.
  - apply (quiet_compose (fun w => next (log EvNext w))); [|exact IH].
    apply (quiet_compose (log EvNext)); [apply quiet_log; reflexivity|exact Hn].
Qed.

Lemma run_handlers_quiet (hs : list Prog) (fuel : nat) :
  Forall uploader.no_allow hs -> quiet (gin.run_handlers allow_impl fuel hs).
Proof.
  intros Hhs. induction fuel as [|fuel IH]; intros w; cbn [gin.run_handlers].
  - split; reflexivity.
  - destruct (_ && _); [|split; reflexivity].
    destruct (hs !! _) as [h|] eqn:Eh; [|split; reflexivity].
    assert (Hh : uploader.no_allow h).
    { rewrite Forall_lookup in Hhs. eapply Hhs. exact Eh. }
    set (nx := fun w' => gin.run_handlers allow_impl fuel hs (bump w')).
    set (w1 := log (EvHandler (index (ctx w))) w).
    destruct (IH (bump (gin.exec allow_impl nx h w1))) as [I1 I2].
    destruct (exec_quiet nx h Hh (quiet_compose _ _ quiet_bump IH) w1) as [Q1 Q2].
    rewrite I1, I2. cbn [bump set_index limiter events].
    rewrite Q1, Q2. subst w1. cbn. rewrite allow_keys_app. cbn.
    split; [reflexivity|apply app_nil_r].
Qed.

Lemma serve_quiet (hs : list Prog) (v : Go.any) (l : W) :
  Forall uploader.no_allow hs ->
  limiter (gin.serve allow_impl hs v l) = l /\
  uploader.allow_keys (events (gin.serve allow_impl hs v l)) = [].
Proof.
  intros Hhs. unfold gin.serve, gin.ContextNext.
  destruct (run_handlers_quiet hs (S (length hs)) Hhs (bump (reset v l))) as [Q1 Q2].
  split; [exact Q1|exact Q2].
Qed.
End Quiet.

Section Routes.
Import gin uploader.

Lemma combineHandlers_fits (g : RouterGroup HandlerFunc) (hs : list HandlerFunc) :
  (length (Handlers g) + length hs < 63)%nat ->
  combineHandlers HandlerFunc g hs = Go.Returned (Handlers g ++ hs).
Proof.
  intros H. unfold combineHandlers.
  destruct (Z.ltb_spec (Z.of_nat (length (Handlers g) + length hs)) abortIndex) as [_|Hge];
    [reflexivity|]. unfold abortIndex in Hge. lia.
Qed.

Lemma addRoute_returned (e : Engine HandlerFunc) (m p : string) (hs : list HandlerFunc) :
  starts_with_slash p = true ->
  String.eqb m "" = false ->
  hs <> [] ->
  valid_wildcards (InStatic false) p = true ->
  existsb (fun rt => String.eqb (Method rt) m && path_conflict (Path rt) p) (trees e) = false ->
  addRoute e m p hs
  = Go.Returned {| root := root e;
                   trees := trees e ++ [ {| Method := m; Path := p; HandlersChain := hs |} ] |}.
Proof.
  intros H1 H2 H3 H4 H5. unfold addRoute. rewrite H1, H2, H4, H5.
  destruct hs; [contradiction|reflexivity].
Qed.

Lemma RegisterRoutes_trees (r : HttpServer) (base : list HandlerFunc) :
  root (svr r) = {| Handlers := base; basePath := "/" |} ->
  trees (svr r) = [] ->
  (length base + 3 < 63)%nat ->
  RegisterRoutes r =
    Go.Returned
      {| root := root (svr r);
         trees := [upload_files_route base; upload_presigned_route base;
                   download_presigned_route base]
                  ++ (if serveSwag r then [swagger_route base] else []) |}.
Proof.
  intros Hroot Htrees Hlen. unfold RegisterRoutes, Group, POST, GET, handle, Use.
  rewrite Hroot.
  repeat (first
    [ rewrite combineHandlers_fits;
      [|cbn [Handlers length]; rewrite ?length_app; cbn [length]; lia]
    | rewrite addRoute_returned;
      [ | reflexivity | reflexivity
        | intros Hnil; apply (f_equal (@length HandlerFunc)) in Hnil;
          rewrite ?length_app in Hnil; cbn [length] in Hnil; lia
        | reflexivity
        | cbn [trees]; rewrite ?Htrees; reflexivity ] ];
    cbn [Go.bind Handlers basePath root trees]).
  destruct (serveSwag r);
    rewrite ?Hroot, Htrees, ?app_nil_r, <- ?app_assoc; reflexivity.
Qed.
End Routes.

Section Service.
Import gin uploader.

Lemma chain_without_gate_quiet (others : HandlerFunc -> Prog) (chain : list HandlerFunc) :
  (forall h, h <> H_ChannelUploadRateLimit -> no_allow (others h)) ->
  ~ In H_ChannelUploadRateLimit chain ->
  Forall no_allow (map (body others) chain).
Proof.
  intros Ho Hn. apply Forall_forall. intros p Hp.
  apply list_elem_of_In, in_map_iff in Hp. destruct Hp as [h [<- Hh]].
  assert (Hne : h <> H_ChannelUploadRateLimit) by (intros ->; exact (Hn Hh)).
  destruct h; try (apply Ho; exact Hne). contradiction.
Qed.

(** C10: [RegisterRoutes] puts the gate on the two upload routes and on
    no other, right after the JWT-forwarding handler; the download route
    has the JWT-forwarding handler and no gate, so a download request
    makes no call of [Allow] and leaves the state behind the limiter as it
    was.  The engine comes with its own handlers [base] (gin allows fewer
    than 63 in a chain) and without routes; the handlers whose bodies are
    written elsewhere do not call the limiter themselves. *)
Theorem rate_limit_only_on_upload (r : HttpServer) (base : list HandlerFunc)
    (others : HandlerFunc -> Prog) :
  root (svr r) = {| Handlers := base; basePath := "/" |} ->
  trees (svr r) = [] ->
  (length base + 3 < 63)%nat ->
  ~ In H_ChannelUploadRateLimit base ->
  (forall h, h <> H_ChannelUploadRateLimit -> no_allow (others h)) ->
  exists e : Engine HandlerFunc,
    RegisterRoutes r = Go.Returned e /\
    find_chain e "POST" "/api/uploader/upload/files"
      = Some (base ++ [H_JWTForwardAuth; H_ChannelUploadRateLimit; H_UploadFiles]) /\
    find_chain e "GET" "/api/uploader/upload/presigned"
      = Some (base ++ [H_JWTForwardAuth; H_ChannelUploadRateLimit; H_GetPresignedUpload]) /\
    find_chain e "GET" "/api/uploader/download/presigned"
      = Some (base ++ [H_JWTForwardAuth; H_GetPresignedDownload]) /\
    (forall rt : RouteInfo HandlerFunc,
       In rt (trees e) ->
       (In H_ChannelUploadRateLimit (HandlersChain rt) <->
        rt = upload_files_route base \/ rt = upload_presigned_route base)) /\
    (forall (env : common.CallEnv) (v : Go.any) (s : common.Store),
       exists w : World common.Store,
         ServeHTTP others r e env "GET" "/api/uploader/download/presigned" v s = Some w /\
         limiter w = s /\ allow_keys (events w) = []).
Proof.
  intros Hroot Htrees Hlen Hbase Hothers.
  eexists. split; [apply (RegisterRoutes_trees r base Hroot Htrees Hlen)|].
  assert (Hdown : ~ In H_ChannelUploadRateLimit
                      (base ++ [H_JWTForwardAuth; H_GetPresignedDownload])).
  { rewrite in_app_iff. cbn. intros [H|[H|[H|[]]]]; [tauto|discriminate..]. }
  split; [reflexivity|]. split; [reflexivity|].
  assert (Hfind : find_chain
                    {| root := root (svr r);
                       trees := [upload_files_route base; upload_presigned_route base;
                                 download_presigned_route base]
                                ++ (if serveSwag r then [swagger_route base] else []) |}
                    "GET" "/api/uploader/download/presigned"
                  = Some (base ++ [H_JWTForwardAuth; H_GetPresignedDownload]))
    by reflexivity.
  split; [exact Hfind|]. split.
  - intros rt Hrt. cbn [trees] in Hrt. rewrite in_app_iff in Hrt.
    destruct Hrt as [[<-|[<-|[<-|[]]]]|Hsw].
    + split; [auto|]. intros _. cbn. rewrite in_app_iff. right. cbn. auto.
    + split; [auto|]. intros _. cbn. rewrite in_app_iff. right. cbn. auto.
    + split; [intros H; destruct (Hdown H)|].
      intros [H|H]; discriminate.
    + destruct (serveSwag r); [|destruct Hsw].
      destruct Hsw as [<-|[]]. split.
      * cbn. rewrite in_app_iff. cbn. intros [H|[H|[]]]; [tauto|discriminate].
      * intros [H|H]; discriminate.
  - intros env v s. unfold ServeHTTP. rewrite Hfind.
    eexists. split; [reflexivity|].
    apply serve_quiet. apply chain_without_gate_quiet; assumption.
Qed.

Lemma rate_limit_only_on_upload_witness :
  exists e : Engine HandlerFunc,
    RegisterRoutes server_demo = Go.Returned e /\
    find_chain e "GET" "/api/uploader/download/presigned"
      = Some [H_Recovery; H_CorsMiddleware; H_LoggingMiddleware; H_LimitBodySize; H_Metrics;
              H_JWTForwardAuth; H_GetPresignedDownload] /\
    exists w : World common.Store,
      ServeHTTP plain_handler server_demo e (common.reachable 0)
        "GET" "/api/uploader/download/presigned" Go.AnyNil ∅ = Some w /\
      limiter w = ∅ /\ allow_keys (events w) = [].
Proof.
  destruct (rate_limit_only_on_upload server_demo
              [H_Recovery; H_CorsMiddleware; H_LoggingMiddleware; H_LimitBodySize; H_Metrics]
              plain_handler)
    as [e (He & _ & _ & Hd & _ & Hs)].
  - reflexivity.
  - reflexivity.
  - cbn. lia.
  - cbn. intros [H|[H|[H|[H|[H|[]]]]]]; discriminate.
  - intros h Hh. destruct h; try contradiction; cbn; repeat constructor.
  - exists e. split; [exact He|]. split; [exact Hd|].
    apply (Hs (common.reachable 0) Go.AnyNil ∅).
Defined.

(** The registered table of the service as [NewGinServer] and
    [RegisterRoutes] build it, swagger on. *)
Example routes_of_the_service :
  match RegisterRoutes server_demo with
  | Go.Returned e => map (fun rt => (Method rt, Path rt)) (trees e)
  | Go.Panicked _ => []
  end
  = [("POST", "/api/uploader/upload/files");
     ("GET", "/api/uploader/upload/presigned");
     ("GET", "/api/uploader/download/presigned");
     ("GET", "/api/uploader/swagger/*any")]%string.
Proof. reflexivity. Qed.

End Service.

(** * Further properties of the service *)

Section RoutedRequests.
Import gin uploader.

Lemma path_matches_static (pattern : string) : forall p : string,
  no_star pattern = true -> (path_matches pattern p = true <-> p = pattern).
Proof.
  induction pattern as [|c pattern IH]; intros p Hs.
  - destruct p; cbn; split; congruence.
  - cbn in Hs. apply andb_true_iff in Hs. destruct Hs as [Hc Hs].
    apply negb_true_iff in Hc. cbn [path_matches]. rewrite Hc.
    destruct p as [|d p]; [split; discriminate|].
    rewrite andb_true_iff, (IH p Hs), Ascii.eqb_eq.
    split; [intros [-> ->]; reflexivity|intros H; injection H; auto].
Qed.

Lemma prefix_cons (c d : ascii) (a b : string) :
  Stdlib.Strings.String.prefix (String c a) (String d b) = true
  <-> c = d /\ Stdlib.Strings.String.prefix a b = true.
Proof.
  simpl. destruct (ascii_dec c d) as [->|Hne].
  - split; [auto|intros [_ H]; exact H].
  - split; [discriminate|intros [? _]; contradiction].
Qed.

Lemma path_matches_catch_all (pre : string) : forall p : string,
  no_star pre = true ->
  (path_matches (pre ++ "*any") p = true <-> Stdlib.Strings.String.prefix pre p = true).
Proof.
  induction pre as [|c pre IH]; intros p Hs.
  - cbn. destruct p; split; reflexivity.
  - cbn in Hs. apply andb_true_iff in Hs. destruct Hs as [Hc Hs].
    apply negb_true_iff in Hc.
    change (String c pre ++ "*any")%string with (String c (pre ++ "*any")).
    cbn [path_matches]. rewrite Hc.
    destruct p as [|d p]; [split; discriminate|].
    rewrite prefix_cons, andb_true_iff, (IH p Hs), Ascii.eqb_eq. reflexivity.
Qed.

Lemma route_matches_static (m p : string) (rt : RouteInfo HandlerFunc) :
  no_star (Path rt) = true ->
  route_matches HandlerFunc m p rt = true <-> m = Method rt /\ p = Path rt.
Proof.
  intros Hs. unfold route_matches.
  rewrite andb_true_iff, String.eqb_eq, (path_matches_static (Path rt) p Hs).
  split; intros [H1 H2]; auto.
Qed.
End RoutedRequests.

Section RoutedTable.
Import gin uploader.

Lemma find_chain_cons (e : Engine HandlerFunc) (rt : RouteInfo HandlerFunc)
    (rts : list (RouteInfo HandlerFunc)) (m p : string) :
  find_chain {| root := e.(root); trees := rt :: rts |} m p
  = if route_matches HandlerFunc m p rt then Some (HandlersChain rt)
    else find_chain {| root := e.(root); trees := rts |} m p.
Proof.
  unfold find_chain. cbn [trees find]. destruct (route_matches _ _ _ rt); reflexivity.
Qed.

(** X1: the requests [RegisterRoutes] makes the engine take are the POST
    of the upload, the GET of the two presigned URLs and, with swagger on,
    every GET under [/api/uploader/swagger/]; any other method or path
    finds no route. *)
Theorem routed_requests (r : HttpServer) (base : list HandlerFunc) :
  root (svr r) = {| Handlers := base; basePath := "/" |} ->
  trees (svr r) = [] ->
  (length base + 3 < 63)%nat ->
  exists e : Engine HandlerFunc,
    RegisterRoutes r = Go.Returned e /\
    forall m p : string, is_Some (find_chain e m p) <-> routed (serveSwag r) m p.
Proof.
  intros Hroot Htrees Hlen.
  eexists. split; [apply (RegisterRoutes_trees r base Hroot Htrees Hlen)|].
  intros m p. cbn [app]. unfold routed.
  rewrite (find_chain_cons (svr r)).
  destruct (route_matches _ m p (upload_files_route base)) eqn:E1.
  { apply route_matches_static in E1; [|reflexivity].
    split; [intros _; left; exact E1|intros _; eexists; reflexivity]. }
  rewrite (find_chain_cons (svr r)).
  destruct (route_matches _ m p (upload_presigned_route base)) eqn:E2.
  { apply route_matches_static in E2; [|reflexivity].
    split; [intros _; right; left; exact E2|intros _; eexists; reflexivity]. }
  rewrite (find_chain_cons (svr r)).
  destruct (route_matches _ m p (download_presigned_route base)) eqn:E3.
  { apply route_matches_static in E3; [|reflexivity].
    split; [intros _; right; right; left; exact E3|intros _; eexists; reflexivity]. }
  assert (N1 : ~ (m = "POST" /\ p = "/api/uploader/upload/files")%string).
  { intros H. apply (route_matches_static m p (upload_files_route base)) in H; [congruence|reflexivity]. }
  assert (N2 : ~ (m = "GET" /\ p = "/api/uploader/upload/presigned")%string).
  { intros H. apply (route_matches_static m p (upload_presigned_route base)) in H; [congruence|reflexivity]. }
  assert (N3 : ~ (m = "GET" /\ p = "/api/uploader/download/presigned")%string).
  { intros H. apply (route_matches_static m p (download_presigned_route base)) in H; [congruence|reflexivity]. }
  destruct (serveSwag r).
  - rewrite (find_chain_cons (svr r)).
    assert (Hsw : route_matches HandlerFunc m p (swagger_route base) = true
                  <-> m = "GET"%string /\
                      Stdlib.Strings.String.prefix "/api/uploader/swagger/" p = true).
    { unfold route_matches, swagger_route. cbn [Method Path].
      rewrite andb_true_iff, String.eqb_eq.
      change "/api/uploader/swagger/*any"%string
        with ("/api/uploader/swagger/" ++ "*any")%string.
      rewrite path_matches_catch_all by reflexivity.
      split; intros [H1 H2]; auto. }
    destruct (route_matches _ m p (swagger_route base)) eqn:E4.
    + split; [intros _; right; right; right; split; [reflexivity|apply Hsw; reflexivity]
             |intros _; eexists; reflexivity].
    + split; [intros [c Hc]; discriminate Hc|].
      intros [H|[H|[H|[_ H]]]]; [tauto..|].
      apply Hsw in H. discriminate H.
  - split; [intros [c Hc]; discriminate Hc|].
    intros [H|[H|[H|[H _]]]]; [tauto..|discriminate H].
Qed.

Lemma routed_requests_witness :
  exists e : Engine HandlerFunc,
    RegisterRoutes server_demo = Go.Returned e /\
    ~ is_Some (find_chain e "GET" "/api/uploader/upload/files") /\
    is_Some (find_chain e "GET" "/api/uploader/swagger/index.html").
Proof.
  destruct (routed_requests server_demo global_middleware) as [e [He Hr]].
  - reflexivity.
  - reflexivity.
  - cbn. lia.
  - exists e. split; [exact He|]. split.
    + rewrite Hr. unfold routed.
      intros [[H _]|[[_ H]|[[_ H]|[_ [_ H]]]]]; discriminate H.
    + rewrite Hr. right. right. right. repeat split.
Defined.

End RoutedTable.

Section ServiceTable.
Import gin uploader.

Lemma NewGinServer_root :
  root NewGinServer = {| Handlers := global_middleware; basePath := "/" |}.
Proof. reflexivity. Qed.

(** X2: the swagger pages follow the [serveSwag] flag.  On the engine of
    [NewGinServer], a GET under [/api/uploader/swagger/] finds no route
    when the flag is off; when it is on, its chain is the engine's own
    handlers and the swagger handler, without JWT forwarding and without
    the gate, and serving it makes no call of [Allow]. *)
Theorem swagger_follows_flag (r : HttpServer) (others : HandlerFunc -> Prog) :
  svr r = NewGinServer ->
  (forall h, h <> H_ChannelUploadRateLimit -> no_allow (others h)) ->
  exists e : Engine HandlerFunc,
    RegisterRoutes r = Go.Returned e /\
    forall p : string,
      (serveSwag r = false ->
       find_chain e "GET" ("/api/uploader/swagger/" ++ p) = None) /\
      (serveSwag r = true ->
       find_chain e "GET" ("/api/uploader/swagger/" ++ p)
         = Some (global_middleware ++ [H_Swagger]) /\
       forall (env : common.CallEnv) (v : Go.any) (s : common.Store),
         exists w : World common.Store,
           ServeHTTP others r e env "GET" ("/api/uploader/swagger/" ++ p) v s = Some w /\
           limiter w = s /\ allow_keys (events w) = []).
Proof.
  intros Hsvr Hothers.
  eexists. split.
  { apply (RegisterRoutes_trees r global_middleware);
      [rewrite Hsvr; reflexivity|rewrite Hsvr; reflexivity|cbn; lia]. }
  intros p. split.
  - intros ->. reflexivity.
  - intros ->.
    assert (Hfind : find_chain
                      {| root := root (svr r);
                         trees := [upload_files_route global_middleware;
                                   upload_presigned_route global_middleware;
                                   download_presigned_route global_middleware]
                                  ++ [swagger_route global_middleware] |}
                      "GET" ("/api/uploader/swagger/" ++ p)
                    = Some (global_middleware ++ [H_Swagger]))
      by reflexivity.
    split; [exact Hfind|].
    intros env v s. unfold ServeHTTP.
    match goal with
    | |- context [find_chain ?e ?m ?q] =>
        change (find_chain e m q) with (Some (global_middleware ++ [H_Swagger]))
    end.
    eexists. split; [reflexivity|].
    apply serve_quiet. apply chain_without_gate_quiet; [exact Hothers|].
    cbn. intros [H|[H|[H|[H|[H|[H|[]]]]]]]; discriminate H.
Qed.

Lemma swagger_follows_flag_witness :
  exists e : Engine HandlerFunc,
    RegisterRoutes server_demo = Go.Returned e /\
    find_chain e "GET" ("/api/uploader/swagger/" ++ "index.html")
      = Some (global_middleware ++ [H_Swagger]).
Proof.
  destruct (swagger_follows_flag server_demo plain_handler) as [e [He Hp]].
  - reflexivity.
  - intros h Hh. destruct h; try contradiction; cbn; repeat constructor.
  - exists e. split; [exact He|].
    destruct (Hp "index.html") as [_ Hon]. destruct Hon as [Hc _]; [reflexivity|exact Hc].
Defined.

Lemma combineHandlers_over (g : RouterGroup HandlerFunc) (hs : list HandlerFunc) :
  (63 <= length (Handlers g) + length hs)%nat ->
  combineHandlers HandlerFunc g hs = Go.Panicked "too many handlers".
Proof.
  intros H. unfold combineHandlers.
  destruct (Z.ltb_spec (Z.of_nat (length (Handlers g) + length hs)) abortIndex) as [Hlt|_];
    [|reflexivity]. unfold abortIndex in Hlt. lia.
Qed.

(** X3: on an engine without routes and with base path [/],
    [RegisterRoutes] returns exactly when the engine brings fewer than 60
    handlers of its own; with 60 or more, a chain of the upload group
    would reach gin's limit of 63 and the registration panics. *)
Theorem RegisterRoutes_returns_iff (r : HttpServer) (base : list HandlerFunc) :
  root (svr r) = {| Handlers := base; basePath := "/" |} ->
  trees (svr r) = [] ->
  ((length base < 60)%nat <-> exists e : Engine HandlerFunc, RegisterRoutes r = Go.Returned e).
Proof.
  intros Hroot Htrees. split.
  - intros Hlen. eexists. apply (RegisterRoutes_trees r base Hroot Htrees). lia.
  - intros [e He].
    destruct (Nat.lt_ge_cases (length base) 60) as [Hlt|Hge]; [exact Hlt|exfalso].
    unfold RegisterRoutes, Group, POST, GET, handle, Use in He. rewrite Hroot in He.
    destruct (Nat.lt_ge_cases (length base) 63) as [Hfit|Hover].
    + do 2 (rewrite combineHandlers_fits in He
              by (cbn [Handlers length]; rewrite ?length_app; cbn [length]; lia);
            cbn [Go.bind Handlers basePath] in He).
      rewrite combineHandlers_over in He
        by (cbn [Handlers length]; rewrite ?length_app; cbn [length]; lia).
      discriminate He.
    + rewrite combineHandlers_over in He
        by (cbn [Handlers length]; lia).
      discriminate He.
Qed.

Lemma RegisterRoutes_returns_iff_witness :
  (length global_middleware < 60)%nat /\
  exists e : Engine HandlerFunc, RegisterRoutes server_demo = Go.Returned e.
Proof.
  split; [cbn; lia|].
  apply (RegisterRoutes_returns_iff server_demo global_middleware eq_refl eq_refl).
  cbn. lia.
Defined.

(** What [addRoute] refuses: a second registration on the same engine
    meets the routes of the first, and a base path with a catch-all makes
    paths that the tree does not take. *)
Example RegisterRoutes_twice_panics :
  match RegisterRoutes server_demo with
  | Go.Returned e =>
      RegisterRoutes {| name := "uploader"; svr := e; httpPort := "80";
                        channelUploadRateLimiter := {| RateLimiter := rl_demo |};
                        serveSwag := true |}
  | Go.Panicked msg => Go.Panicked msg
  end = Go.Panicked "path conflicts with a registered route".
Proof. reflexivity. Qed.

Example RegisterRoutes_catch_all_base_panics :
  RegisterRoutes
    {| name := "uploader";
       svr := {| root := {| Handlers := []; basePath := "/*x" |}; trees := [] |};
       httpPort := "80";
       channelUploadRateLimiter := {| RateLimiter := rl_demo |};
       serveSwag := false |}
  = Go.Panicked "invalid wildcard in path".
Proof. reflexivity. Qed.

(** An engine with 60 handlers of its own: the registration panics. *)
Example RegisterRoutes_panics_at_60 :
  RegisterRoutes
    {| name := "uploader";
       svr := EngineUse New (repeat H_Recovery 60);
       httpPort := "80";
       channelUploadRateLimiter := {| RateLimiter := rl_demo |};
       serveSwag := false |}
  = Go.Panicked "too many handlers".
Proof. reflexivity. Qed.

(** X4: on the engine of [NewGinServer], every route that [RegisterRoutes]
    adds runs the recovery, CORS, logging, body-size and metrics handlers
    first, in this order, before any handler of the route itself: the JWT
    forwarding, the gate and the upload and presign handlers come after
    the body-size limit. *)
Theorem global_middleware_first (r : HttpServer) :
  svr r = NewGinServer ->
  exists e : Engine HandlerFunc,
    RegisterRoutes r = Go.Returned e /\
    forall rt : RouteInfo HandlerFunc,
      In rt (trees e) ->
      exists rest : list HandlerFunc,
        HandlersChain rt = global_middleware ++ rest /\
        rest <> [] /\
        forall h, In h rest -> ~ In h global_middleware.
Proof.
  intros Hsvr.
  eexists. split.
  { apply (RegisterRoutes_trees r global_middleware);
      [rewrite Hsvr; reflexivity|rewrite Hsvr; reflexivity|cbn; lia]. }
  intros rt Hrt. cbn [trees] in Hrt. rewrite in_app_iff in Hrt.
  assert (Hnot : forall rest : list HandlerFunc,
            Forall (fun h => is_route_handler h = true) rest ->
            forall h, In h rest -> ~ In h global_middleware).
  { intros rest Hf h Hh. rewrite Forall_forall in Hf.
    specialize (Hf h ltac:(apply list_elem_of_In; exact Hh)).
    cbn. intros [H|[H|[H|[H|[H|[]]]]]]; subst h; discriminate Hf. }
  destruct Hrt as [[<-|[<-|[<-|[]]]]|Hsw].
  - eexists. split; [reflexivity|]. split; [discriminate|].
    apply Hnot. repeat constructor.
  - eexists. split; [reflexivity|]. split; [discriminate|].
    apply Hnot. repeat constructor.
  - eexists. split; [reflexivity|]. split; [discriminate|].
    apply Hnot. repeat constructor.
  - destruct (serveSwag r); [|destruct Hsw]. destruct Hsw as [<-|[]].
    eexists. split; [reflexivity|]. split; [discriminate|].
    apply Hnot. repeat constructor.
Qed.

Lemma global_middleware_first_witness :
  exists rest : list HandlerFunc,
    HandlersChain (upload_files_route global_middleware) = global_middleware ++ rest /\
    rest <> [].
Proof.
  destruct (global_middleware_first server_demo eq_refl) as [e [He Hr]].
  assert (Ht : RegisterRoutes server_demo
               = Go.Returned
                   {| root := root (svr server_demo);
                      trees := [upload_files_route global_middleware;
                                upload_presigned_route global_middleware;
                                download_presigned_route global_middleware;
                                swagger_route global_middleware] |})
    by reflexivity.
  rewrite Ht in He. injection He as <-.
  destruct (Hr (upload_files_route global_middleware)) as [rest (Hc & Hne & _)].
  - cbn. left. reflexivity.
  - exists rest. split; [exact Hc|exact Hne].
Defined.

End ServiceTable.

Section TtlRange.

Lemma wrap64_in_int64 (z : Z) : Go.in_int64 (Go.wrap64 z).
Proof.
  unfold Go.in_int64, Go.wrap64.
  pose proof (Z.mod_pos_bound (z + 2 ^ 63) (2 ^ 64) ltac:(lia)). lia.
Qed.

Lemma wrap64_fixed_iff (z : Z) : Go.wrap64 z = z <-> Go.in_int64 z.
Proof.
  split.
  - intros H. rewrite <- H. apply wrap64_in_int64.
  - apply wrap64_small.
Qed.

(** X5: the ttl that [NewChannelUploadRateLimiter] hands to the
    constructor of the limiter is always an [int64] count of nanoseconds,
    and it is [Redis.ExpirationHour] hours exactly when [ExpirationHour]
    lies between -2562047 and 2562047; within that range it is positive
    exactly when [ExpirationHour] is. *)
Theorem ttl_exact_iff_in_range (rc0 : common.UniversalClient) (cfg : config.Config) :
  uploader.NewChannelUploadRateLimiter rc0 cfg
    = Go.bind
        (common.NewRateLimiter rc0
           (config.Rps (config.Uploader_RateLimit_ChannelUpload cfg))
           (config.Burst (config.Uploader_RateLimit_ChannelUpload cfg))
           (ttl_of_config cfg))
        (fun rl => Go.Returned {| uploader.RateLimiter := rl |}) /\
  Go.in_int64 (ttl_of_config cfg) /\
  (ttl_of_config cfg = config.ExpirationHour (config.Redis cfg) * time.Hour
   <-> - 2562047 <= config.ExpirationHour (config.Redis cfg) <= 2562047) /\
  (- 2562047 <= config.ExpirationHour (config.Redis cfg) <= 2562047 ->
   (0 < ttl_of_config cfg <-> 0 < config.ExpirationHour (config.Redis cfg))).
Proof.
  split; [reflexivity|].
  unfold ttl_of_config, time.mul, time.of_int64.
  split; [apply wrap64_in_int64|]. split.
  - rewrite wrap64_fixed_iff. unfold Go.in_int64.
    change time.Hour with 3600000000000. lia.
  - intros Hr. rewrite wrap64_small.
    + change time.Hour with 3600000000000. lia.
    + unfold Go.in_int64. change time.Hour with 3600000000000. lia.
Qed.

Lemma ttl_exact_iff_in_range_witness :
  ttl_of_config (cfg_of 1 5 24) = 24 * time.Hour /\
  ttl_of_config (cfg_of 1 5 2562048) <> 2562048 * time.Hour /\
  (0 < ttl_of_config (cfg_of 1 5 24) <-> 0 < 24).
Proof.
  destruct (ttl_exact_iff_in_range (common.Client "redis:6379") (cfg_of 1 5 24))
    as (_ & _ & Hin & Hpos).
  destruct (ttl_exact_iff_in_range (common.Client "redis:6379") (cfg_of 1 5 2562048))
    as (_ & _ & Hout & _).
  split; [|split].
  - apply Hin. cbn. lia.
  - intros H. apply Hout in H. cbn in H. lia.
  - apply Hpos. cbn. lia.
Defined.

End TtlRange.

Section Keys.
Import strconv.

Lemma formatBits_length (fuel : nat) : forall (u : Z) (acc : string),
  (String.length (formatBits fuel u acc) <= fuel + String.length acc)%nat.
Proof.
  induction fuel as [|fuel IH]; intros u acc; cbn [formatBits].
  - lia.
  - destruct (u <? 10).
    + cbn. lia.
    + specialize (IH (u / 10) (String (digit (u mod 10)) acc)). cbn in IH. lia.
Qed.

Lemma FormatUint_injective (a b : Z) :
  Go.in_uint64 a -> Go.in_uint64 b -> FormatUint a = FormatUint b -> a = b.
Proof.
  intros Ha Hb Heq.
  destruct (FormatUint_spec a Ha) as (_ & _ & Pa).
  destruct (FormatUint_spec b Hb) as (_ & _ & Pb).
  rewrite <- Pa, <- Pb, Heq. reflexivity.
Qed.

End Keys.

Section GateKeys.
Import gin.
Variable W : Type.
Variable allow_impl : string -> W -> (bool * Go.error) * W.

Lemma gate_alone_keys (id : Z) (l : W) :
  uploader.allow_keys
    (events (exec allow_impl (fun w' => w') uploader.ChannelUploadRateLimit
               (reset (Go.AnyUint64 id) l)))
  = [strconv.FormatUint id].
Proof.
  destruct (allow_impl (strconv.FormatUint id) l) as [[a e] l'] eqn:Ha.
  rewrite (gate_called W allow_impl _ (reset (Go.AnyUint64 id) l) id a e l' eq_refl Ha).
  cbv zeta. destruct e as [msg|]; [|destruct a]; reflexivity.
Qed.

(** X6: requests of two different channels are charged to two different
    keys: the gate calls [Allow] once for each, and the two keys differ. *)
Theorem distinct_channels_distinct_keys (a b : Z) (la lb : W) :
  Go.in_uint64 a -> Go.in_uint64 b -> a <> b ->
  exists ka kb : string,
    uploader.allow_keys
      (events (exec allow_impl (fun w' => w') uploader.ChannelUploadRateLimit
                 (reset (Go.AnyUint64 a) la))) = [ka] /\
    uploader.allow_keys
      (events (exec allow_impl (fun w' => w') uploader.ChannelUploadRateLimit
                 (reset (Go.AnyUint64 b) lb))) = [kb] /\
    ka <> kb.
Proof.
  intros Ha Hb Hne.
  exists (strconv.FormatUint a), (strconv.FormatUint b).
  split; [apply gate_alone_keys|]. split; [apply gate_alone_keys|].
  intros Heq. apply Hne. apply FormatUint_injective; assumption.
Qed.

(** X7: the key the gate hands to [Allow] for a [uint64] channel id has
    at least one and at most twenty characters. *)
Theorem gate_key_length (id : Z) (l : W) :
  Go.in_uint64 id ->
  exists key : string,
    uploader.allow_keys
      (events (exec allow_impl (fun w' => w') uploader.ChannelUploadRateLimit
                 (reset (Go.AnyUint64 id) l))) = [key] /\
    (1 <= String.length key <= 20)%nat.
Proof.
  intros Hid. exists (strconv.FormatUint id). split; [apply gate_alone_keys|].
  split.
  - destruct (FormatUint_spec id Hid) as (Hne & _ & _).
    destruct (strconv.FormatUint id); [contradiction|cbn; lia].
  - unfold strconv.FormatUint.
    pose proof (formatBits_length 20 id "") as H. cbn [String.length] in H. lia.
Qed.

(** X8: a run of requests through the gate mirrors the run of calls of
    [Allow] with the decimal keys of the channels: the statuses are 200
    where [Allow] allowed, 429 where it denied and 500 where it failed,
    and the state behind the limiter ends where the calls leave it. *)
Theorem gate_seq_mirrors_allow (ids : list Z) : forall l : W,
  gate_seq allow_impl ids l
  = (map gate_status (fst (allow_seq allow_impl (map strconv.FormatUint ids) l)),
     snd (allow_seq allow_impl (map strconv.FormatUint ids) l)).
Proof.
  induction ids as [|id ids IH]; intros l; [reflexivity|].
  cbn [gate_seq allow_seq map].
  destruct (allow_impl (strconv.FormatUint id) l) as [[a e] l'] eqn:Ha.
  rewrite (gate_called W allow_impl _ (reset (Go.AnyUint64 id) l) id a e l' eq_refl Ha).
  cbv zeta.
  destruct e as [msg|]; destruct a;
    repeat match goal with
           | |- context [abort_with_status ?code ?w0] =>
               let Hst := fresh "Hst" in
               let Hlim := fresh "Hlim" in
               destruct (abort_with_status_spec W code w0 ltac:(reflexivity))
                 as (Hst & _ & _ & Hlim & _);
               rewrite Hst, Hlim; clear Hst Hlim
           end;
    cbn [limiter ctx status written reset log set_limiter];
    rewrite IH; destruct (allow_seq allow_impl _ l') as [rs l2]; reflexivity.
Qed.

(** X9: in a chain, a request whose context carries no [uint64] channel
    id stops at the gate, which calls [AbortWithStatus(401)], and a
    request that [Allow] denies stops there with [AbortWithStatus(429)]:
    in both cases no handler after the gate is entered and the response
    status is 401 or 429 unless a response had gone out before; without
    a channel id the state behind the limiter stays as it was. *)
Theorem gate_stops_chain (hs : list Prog) (i fuel : nat) (w : World W) :
  hs !! i = Some uploader.ChannelUploadRateLimit ->
  index (ctx w) = Z.of_nat i -> (length hs < 63)%nat ->
  ((forall n : Z, value (ctx w) <> Go.AnyUint64 n) ->
   (written (ctx w) = false -> status (ctx (run_handlers allow_impl (S fuel) hs w)) = 401) /\
   (written (ctx w) = true ->
    status (ctx (run_handlers allow_impl (S fuel) hs w)) = status (ctx w)) /\
   limiter (run_handlers allow_impl (S fuel) hs w) = limiter w /\
   events (run_handlers allow_impl (S fuel) hs w)
     = events w ++ [EvHandler (Z.of_nat i); EvAbort 401]) /\
  (forall (id : Z) (l : W),
     value (ctx w) = Go.AnyUint64 id ->
     allow_impl (strconv.FormatUint id) (limiter w) = ((false, None), l) ->
     (written (ctx w) = false -> status (ctx (run_handlers allow_impl (S fuel) hs w)) = 429) /\
     (written (ctx w) = true ->
      status (ctx (run_handlers allow_impl (S fuel) hs w)) = status (ctx w)) /\
     limiter (run_handlers allow_impl (S fuel) hs w) = l /\
     events (run_handlers allow_impl (S fuel) hs w)
       = events w ++ [EvHandler (Z.of_nat i);
                      EvAllow (strconv.FormatUint id) false None; EvAbort 429]).
Proof.
  intros Hh Hi Hl. rewrite (run_handlers_at W allow_impl hs i _ fuel w Hh Hi). split.
  - intros Hv.
    rewrite (gate_unauthorized W allow_impl _ (log (EvHandler (Z.of_nat i)) w) Hv).
    destruct (abort_with_status_spec W http.StatusUnauthorized
                (log (EvHandler (Z.of_nat i)) w) ltac:(reflexivity))
      as (Hst & _ & Hix & Hlim & Hev).
    rewrite run_handlers_aborted by assumption.
    cbn [bump set_index ctx status limiter events]. rewrite Hst, Hlim, Hev.
    cbn [log ctx limiter events].
    split; [intros ->; reflexivity|]. split; [intros ->; reflexivity|].
    split; [reflexivity|]. rewrite <- !app_assoc. reflexivity.
  - intros id l Hv Ha.
    rewrite (gate_called W allow_impl _ (log (EvHandler (Z.of_nat i)) w) id false None l Hv Ha).
    cbv zeta.
    destruct (abort_with_status_spec W http.StatusTooManyRequests
                (log (EvAllow (strconv.FormatUint id) false None)
                   (set_limiter l (log (EvHandler (Z.of_nat i)) w))) ltac:(reflexivity))
      as (Hst & _ & Hix & Hlim & Hev).
    rewrite run_handlers_aborted by assumption.
    cbn [bump set_index ctx status limiter events]. rewrite Hst, Hlim, Hev.
    cbn [log set_limiter ctx limiter events].
    split; [intros ->; reflexivity|]. split; [intros ->; reflexivity|].
    split; [reflexivity|]. rewrite <- !app_assoc. reflexivity.
Qed.

End GateKeys.

Section GateKeySamples.
Import gin.

Lemma distinct_channels_distinct_keys_witness :
  Go.in_uint64 7 /\ Go.in_uint64 42 /\
  exists ka kb : string,
    uploader.allow_keys
      (events (exec (common.Allow rl_demo (common.reachable 0)) (fun w' => w')
                 uploader.ChannelUploadRateLimit (reset (Go.AnyUint64 7) ∅))) = [ka] /\
    uploader.allow_keys
      (events (exec (common.Allow rl_demo (common.reachable 0)) (fun w' => w')
                 uploader.ChannelUploadRateLimit (reset (Go.AnyUint64 42) ∅))) = [kb] /\
    ka <> kb.
Proof.
  assert (H7 : Go.in_uint64 7) by (unfold Go.in_uint64; lia).
  assert (H42 : Go.in_uint64 42) by (unfold Go.in_uint64; lia).
  split; [exact H7|]. split; [exact H42|].
  apply (distinct_channels_distinct_keys common.Store
           (common.Allow rl_demo (common.reachable 0)) 7 42 ∅ ∅ H7 H42).
  lia.
Defined.

Lemma gate_key_length_witness :
  Go.in_uint64 18446744073709551615 /\
  exists key : string,
    uploader.allow_keys
      (events (exec (common.Allow rl_demo (common.reachable 0)) (fun w' => w')
                 uploader.ChannelUploadRateLimit
                 (reset (Go.AnyUint64 18446744073709551615) ∅))) = [key] /\
    (1 <= String.length key <= 20)%nat.
Proof.
  assert (H : Go.in_uint64 18446744073709551615) by (unfold Go.in_uint64; lia).
  split; [exact H|].
  apply (gate_key_length common.Store (common.Allow rl_demo (common.reachable 0))
           18446744073709551615 ∅ H).
Defined.

Lemma gate_stops_chain_witness :
  status (ctx (run_handlers (common.Allow rl_demo (common.reachable 0)) 3
                 [plain_handler uploader.H_Recovery; uploader.ChannelUploadRateLimit;
                  plain_handler uploader.H_UploadFiles]
                 {| ctx := {| value := Go.AnyNil; index := 1; status := 200;
                              written := false |};
                    limiter := ∅; events := [] |})) = 401 /\
  events (run_handlers (common.Allow rl_demo (common.reachable 0)) 3
            [plain_handler uploader.H_Recovery; uploader.ChannelUploadRateLimit;
             plain_handler uploader.H_UploadFiles]
            {| ctx := {| value := Go.AnyNil; index := 1; status := 200;
                         written := false |};
               limiter := ∅; events := [] |})
    = [EvHandler 1; EvAbort 401].
Proof.
  destruct (gate_stops_chain common.Store (common.Allow rl_demo (common.reachable 0))
              [plain_handler uploader.H_Recovery; uploader.ChannelUploadRateLimit;
               plain_handler uploader.H_UploadFiles] 1 2
              {| ctx := {| value := Go.AnyNil; index := 1; status := 200;
                           written := false |};
                 limiter := ∅; events := [] |}) as [H401 _].
  - reflexivity.
  - reflexivity.
  - cbn. lia.
  - destruct H401 as (Hst & _ & _ & Hev); [intros n; discriminate|].
    split; [apply Hst; reflexivity|exact Hev].
Defined.

End GateKeySamples.

Section EndToEnd.

(** With the limiter of the specification behind the gate, one credit per
    second and five at most: six upload requests of channel 42 at one
    instant, then one more two seconds later. *)
Example burst_through_the_gate :
  fst (gate_seq (common.Allow rl_demo (common.reachable 0)) (replicate 6 42) ∅)
    = [200; 200; 200; 200; 200; 429] /\
  fst (gate_seq (common.Allow rl_demo (common.reachable 2)) [42]
         (snd (gate_seq (common.Allow rl_demo (common.reachable 0)) (replicate 6 42) ∅)))
    = [200].
Proof. split; vm_compute; reflexivity. Qed.

End EndToEnd.
